(** * Embedded ASCII bitmap font: glyph lookup, blitting and text metrics

    A shallow embedding of [embedded_ascii.h].  C [int] and [char] values
    are integers in [Z].  Every [int] sum, difference and product of the
    source that can leave the range of [int] is written with its 32-bit
    two's-complement wrap-around ([int_add], [int_sub], [int_mul]), which is
    what the usual targets compute; the C standard itself leaves the result
    of a signed overflow undefined.  Comparisons are exact.  Rows of a glyph
    are [uint8_t] values, tested with [Z.land] and [Z.shiftl] as in the
    source. *)

From Stdlib Require Import ZArith Lia List Bool.
From stdpp Require Import base tactics option list list_numbers sorting.

Local Open Scope Z_scope.

(** ** Configuration *)

Definition ASCII_FONT_WIDTH : Z := 8.
Definition ASCII_FONT_HEIGHT : Z := 8.
Definition ASCII_FIRST_CHAR : Z := 32.
Definition ASCII_LAST_CHAR : Z := 127.
Definition ASCII_CHAR_COUNT : Z := ASCII_LAST_CHAR - ASCII_FIRST_CHAR.

(** ** The C type [int] *)

Definition INT_MIN : Z := -2147483648.
Definition INT_MAX : Z := 2147483647.

(** The values of type [int]. *)
Definition fits_int (z : Z) : Prop := INT_MIN ≤ z ≤ INT_MAX.

(** The [int] that a mathematical result becomes: the value in
    [INT_MIN .. INT_MAX] congruent to it modulo [2^32]. *)
Definition int_wrap (z : Z) : Z := (z + 2147483648) mod 4294967296 - 2147483648.

Definition int_add (a b : Z) : Z := int_wrap (a + b).
Definition int_sub (a b : Z) : Z := int_wrap (a - b).
Definition int_mul (a b : Z) : Z := int_wrap (a * b).

(** [ascii_mono_color_t] is [uint8_t], [ascii_rgb565_color_t] is [uint16_t];
    a color argument already has the element type of the buffer it is
    stored into, so a store never truncates it. *)
Definition ascii_mono_color_t : Type := Z.
Definition ascii_rgb565_color_t : Type := Z.

(** ** Font data *)

(** A glyph is the list of its rows, top to bottom, one byte per row. *)
Definition glyph : Type := list Z.

Definition ascii_font : list glyph :=
  [
    [0x00; 0x00; 0x00; 0x00; 0x00; 0x00; 0x00; 0x00];  (* ASCII 32 *)
    [0x00; 0x00; 0x00; 0x00; 0x00; 0x00; 0x00; 0x00];  (* ASCII 33 *)
    [0x00; 0x00; 0x00; 0x00; 0x00; 0x00; 0x00; 0x00];  (* ASCII 34 *)
    [0x00; 0x00; 0x00; 0x00; 0x00; 0x00; 0x00; 0x00];  (* ASCII 35 *)
    [0x00; 0x00; 0x00; 0x00; 0x00; 0x00; 0x00; 0x00];  (* ASCII 36 *)
    [0x00; 0x00; 0x00; 0x00; 0x00; 0x00; 0x00; 0x00];  (* ASCII 37 *)
    [0x00; 0x00; 0x00; 0x00; 0x00; 0x00; 0x00; 0x00];  (* ASCII 38 *)
    [0x00; 0x00; 0x00; 0x00; 0x00; 0x00; 0x00; 0x00];  (* ASCII 39 *)
    [0x00; 0x00; 0x00; 0x00; 0x00; 0x00; 0x00; 0x00];  (* ASCII 40 *)
    [0x00; 0x00; 0x00; 0x00; 0x00; 0x00; 0x00; 0x00];  (* ASCII 41 *)
    [0x00; 0x00; 0x00; 0x00; 0x00; 0x00; 0x00; 0x00];  (* ASCII 42 *)
    [0x00; 0x00; 0x00; 0x00; 0x00; 0x00; 0x00; 0x00];  (* ASCII 43 *)
    [0x00; 0x00; 0x00; 0x00; 0x00; 0x00; 0x00; 0x00];  (* ASCII 44 *)
    [0x00; 0x00; 0x00; 0x00; 0x00; 0x00; 0x00; 0x00];  (* ASCII 45 *)
    [0x00; 0x00; 0x00; 0x00; 0x00; 0x00; 0x00; 0x00];  (* ASCII 46 *)
    [0x00; 0x00; 0x00; 0x00; 0x00; 0x00; 0x00; 0x00];  (* ASCII 47 *)
    [0x3E; 0x7F; 0x6B; 0x6B; 0x6B; 0x6B; 0x7F; 0x3E];  (* ASCII 48 *)
    [0x00; 0x00; 0x00; 0x00; 0x00; 0x00; 0x00; 0x00];  (* ASCII 49 *)
    [0x00; 0x00; 0x00; 0x00; 0x00; 0x00; 0x00; 0x00];  (* ASCII 50 *)
    [0x00; 0x00; 0x00; 0x00; 0x00; 0x00; 0x00; 0x00];  (* ASCII 51 *)
    [0x00; 0x00; 0x00; 0x00; 0x00; 0x00; 0x00; 0x00];  (* ASCII 52 *)
    [0x00; 0x00; 0x00; 0x00; 0x00; 0x00; 0x00; 0x00];  (* ASCII 53 *)
    [0x00; 0x00; 0x00; 0x00; 0x00; 0x00; 0x00; 0x00];  (* ASCII 54 *)
    [0x00; 0x00; 0x00; 0x00; 0x00; 0x00; 0x00; 0x00];  (* ASCII 55 *)
    [0x00; 0x00; 0x00; 0x00; 0x00; 0x00; 0x00; 0x00];  (* ASCII 56 *)
    [0x00; 0x00; 0x00; 0x00; 0x00; 0x00; 0x00; 0x00];  (* ASCII 57 *)
    [0x00; 0x00; 0x00; 0x00; 0x00; 0x00; 0x00; 0x00];  (* ASCII 58 *)
    [0x00; 0x00; 0x00; 0x00; 0x00; 0x00; 0x00; 0x00];  (* ASCII 59 *)
    [0x00; 0x00; 0x00; 0x00; 0x00; 0x00; 0x00; 0x00];  (* ASCII 60 *)
    [0x00; 0x00; 0x00; 0x00; 0x00; 0x00; 0x00; 0x00];  (* ASCII 61 *)
    [0x00; 0x00; 0x00; 0x00; 0x00; 0x00; 0x00; 0x00];  (* ASCII 62 *)
    [0x00; 0x00; 0x00; 0x00; 0x00; 0x00; 0x00; 0x00];  (* ASCII 63 *)
    [0x00; 0x00; 0x00; 0x00; 0x00; 0x00; 0x00; 0x00];  (* ASCII 64 *)
    [0x00; 0x00; 0x00; 0x00; 0x00; 0x00; 0x00; 0x00];  (* ASCII 65 *)
    [0x00; 0x00; 0x00; 0x00; 0x00; 0x00; 0x00; 0x00];  (* ASCII 66 *)
    [0x00; 0x00; 0x00; 0x00; 0x00; 0x00; 0x00; 0x00];  (* ASCII 67 *)
    [0x00; 0x00; 0x00; 0x00; 0x00; 0x00; 0x00; 0x00];  (* ASCII 68 *)
    [0x00; 0x00; 0x00; 0x00; 0x00; 0x00; 0x00; 0x00];  (* ASCII 69 *)
    [0x00; 0x00; 0x00; 0x00; 0x00; 0x00; 0x00; 0x00];  (* ASCII 70 *)
    [0x00; 0x00; 0x00; 0x00; 0x00; 0x00; 0x00; 0x00];  (* ASCII 71 *)
    [0x00; 0x00; 0x00; 0x00; 0x00; 0x00; 0x00; 0x00];  (* ASCII 72 *)
    [0x00; 0x00; 0x00; 0x00; 0x00; 0x00; 0x00; 0x00];  (* ASCII 73 *)
    [0x00; 0x00; 0x00; 0x00; 0x00; 0x00; 0x00; 0x00];  (* ASCII 74 *)
    [0x00; 0x00; 0x00; 0x00; 0x00; 0x00; 0x00; 0x00];  (* ASCII 75 *)
    [0x00; 0x00; 0x00; 0x00; 0x00; 0x00; 0x00; 0x00];  (* ASCII 76 *)
    [0x00; 0x00; 0x00; 0x00; 0x00; 0x00; 0x00; 0x00];  (* ASCII 77 *)
    [0x00; 0x00; 0x00; 0x00; 0x00; 0x00; 0x00; 0x00];  (* ASCII 78 *)
    [0x00; 0x00; 0x00; 0x00; 0x00; 0x00; 0x00; 0x00];  (* ASCII 79 *)
    [0x00; 0x00; 0x00; 0x00; 0x00; 0x00; 0x00; 0x00];  (* ASCII 80 *)
    [0x00; 0x00; 0x00; 0x00; 0x00; 0x00; 0x00; 0x00];  (* ASCII 81 *)
    [0x00; 0x00; 0x00; 0x00; 0x00; 0x00; 0x00; 0x00];  (* ASCII 82 *)
    [0x00; 0x00; 0x00; 0x00; 0x00; 0x00; 0x00; 0x00];  (* ASCII 83 *)
    [0x00; 0x00; 0x00; 0x00; 0x00; 0x00; 0x00; 0x00];  (* ASCII 84 *)
    [0x00; 0x00; 0x00; 0x00; 0x00; 0x00; 0x00; 0x00];  (* ASCII 85 *)
    [0x00; 0x00; 0x00; 0x00; 0x00; 0x00; 0x00; 0x00];  (* ASCII 86 *)
    [0x00; 0x00; 0x00; 0x00; 0x00; 0x00; 0x00; 0x00];  (* ASCII 87 *)
    [0x00; 0x00; 0x00; 0x00; 0x00; 0x00; 0x00; 0x00];  (* ASCII 88 *)
    [0x00; 0x00; 0x00; 0x00; 0x00; 0x00; 0x00; 0x00];  (* ASCII 89 *)
    [0x00; 0x00; 0x00; 0x00; 0x00; 0x00; 0x00; 0x00];  (* ASCII 90 *)
    [0x00; 0x00; 0x00; 0x00; 0x00; 0x00; 0x00; 0x00];  (* ASCII 91 *)
    [0x00; 0x00; 0x00; 0x00; 0x00; 0x00; 0x00; 0x00];  (* ASCII 92 *)
    [0x00; 0x00; 0x00; 0x00; 0x00; 0x00; 0x00; 0x00];  (* ASCII 93 *)
    [0x00; 0x00; 0x00; 0x00; 0x00; 0x00; 0x00; 0x00];  (* ASCII 94 *)
    [0x00; 0x00; 0x00; 0x00; 0x00; 0x00; 0x00; 0x00];  (* ASCII 95 *)
    [0x00; 0x00; 0x00; 0x00; 0x00; 0x00; 0x00; 0x00];  (* ASCII 96 *)
    [0x00; 0x00; 0x00; 0x00; 0x00; 0x00; 0x00; 0x00];  (* ASCII 97 *)
    [0x00; 0x00; 0x00; 0x00; 0x00; 0x00; 0x00; 0x00];  (* ASCII 98 *)
    [0x00; 0x00; 0x00; 0x00; 0x00; 0x00; 0x00; 0x00];  (* ASCII 99 *)
    [0x00; 0x00; 0x00; 0x00; 0x00; 0x00; 0x00; 0x00];  (* ASCII 100 *)
    [0x00; 0x00; 0x00; 0x00; 0x00; 0x00; 0x00; 0x00];  (* ASCII 101 *)
    [0x00; 0x00; 0x00; 0x00; 0x00; 0x00; 0x00; 0x00];  (* ASCII 102 *)
    [0x00; 0x00; 0x00; 0x00; 0x00; 0x00; 0x00; 0x00];  (* ASCII 103 *)
    [0x00; 0x00; 0x00; 0x00; 0x00; 0x00; 0x00; 0x00];  (* ASCII 104 *)
    [0x00; 0x00; 0x00; 0x00; 0x00; 0x00; 0x00; 0x00];  (* ASCII 105 *)
    [0x00; 0x00; 0x00; 0x00; 0x00; 0x00; 0x00; 0x00];  (* ASCII 106 *)
    [0x00; 0x00; 0x00; 0x00; 0x00; 0x00; 0x00; 0x00];  (* ASCII 107 *)
    [0x00; 0x00; 0x00; 0x00; 0x00; 0x00; 0x00; 0x00];  (* ASCII 108 *)
    [0x00; 0x00; 0x00; 0x00; 0x00; 0x00; 0x00; 0x00];  (* ASCII 109 *)
    [0x00; 0x00; 0x00; 0x00; 0x00; 0x00; 0x00; 0x00];  (* ASCII 110 *)
    [0x00; 0x00; 0x00; 0x00; 0x00; 0x00; 0x00; 0x00];  (* ASCII 111 *)
    [0x00; 0x00; 0x00; 0x00; 0x00; 0x00; 0x00; 0x00];  (* ASCII 112 *)
    [0x00; 0x00; 0x00; 0x00; 0x00; 0x00; 0x00; 0x00];  (* ASCII 113 *)
    [0x00; 0x00; 0x00; 0x00; 0x00; 0x00; 0x00; 0x00];  (* ASCII 114 *)
    [0x00; 0x00; 0x00; 0x00; 0x00; 0x00; 0x00; 0x00];  (* ASCII 115 *)
    [0x00; 0x00; 0x00; 0x00; 0x00; 0x00; 0x00; 0x00];  (* ASCII 116 *)
    [0x00; 0x00; 0x00; 0x00; 0x00; 0x00; 0x00; 0x00];  (* ASCII 117 *)
    [0x00; 0x00; 0x00; 0x00; 0x00; 0x00; 0x00; 0x00];  (* ASCII 118 *)
    [0x00; 0x00; 0x00; 0x00; 0x00; 0x00; 0x00; 0x00];  (* ASCII 119 *)
    [0x00; 0x00; 0x00; 0x00; 0x00; 0x00; 0x00; 0x00];  (* ASCII 120 *)
    [0x00; 0x00; 0x00; 0x00; 0x00; 0x00; 0x00; 0x00];  (* ASCII 121 *)
    [0x00; 0x00; 0x00; 0x00; 0x00; 0x00; 0x00; 0x00];  (* ASCII 122 *)
    [0x00; 0x00; 0x00; 0x00; 0x00; 0x00; 0x00; 0x00];  (* ASCII 123 *)
    [0x00; 0x00; 0x00; 0x00; 0x00; 0x00; 0x00; 0x00];  (* ASCII 124 *)
    [0x00; 0x00; 0x00; 0x00; 0x00; 0x00; 0x00; 0x00];  (* ASCII 125 *)
    [0x00; 0x00; 0x00; 0x00; 0x00; 0x00; 0x00; 0x00]   (* ASCII 126 *)
  ].

(** ** Library API *)

(** [ascii_font[i]]: the row of the table a pointer to which the lookup
    returns.  Both call sites index inside the table ([font_entry_in_table]
    below), so the default of [nth] is never the result. *)
Definition font_entry (i : Z) : glyph := nth (Z.to_nat i) ascii_font [].

Definition ascii_get_char_bitmap (c : Z) : glyph :=
  if (c <? ASCII_FIRST_CHAR) || (c >=? ASCII_LAST_CHAR)
  then font_entry 0
  else font_entry (c - ASCII_FIRST_CHAR).

(** [bitmap[row]] *)
Definition bitmap_row (bitmap : glyph) (row : Z) : Z :=
  nth (Z.to_nat row) bitmap 0.

(** [bitmap[row] & (1 << (7 - col))], as a C condition *)
Definition pixel_on (bitmap : glyph) (row col : Z) : bool :=
  negb (Z.land (bitmap_row bitmap row) (Z.shiftl 1 (7 - col)) =? 0).

(** *** Loops

    [for (int i = 0; i < n; i++) body] runs its body on [seqZ 0 n] in
    order; the counters stay below 8, so [i++] is exact.  In the loops that
    [break], the test comes first in the body, before anything is written:
    a body that answers [None] has left the loop with the state it was
    given. *)

Definition for_each {St : Type} (idx : list Z) (body : Z → St → St) (st : St) : St :=
  fold_left (λ s i, body i s) idx st.

Fixpoint for_each_break {St : Type} (idx : list Z) (body : Z → St → option St)
    (st : St) : St :=
  match idx with
  | [] => st
  | i :: idx' =>
      match body i st with
      | None => st
      | Some st' => for_each_break idx' body st'
      end
  end.

(** *** Drawing through a pixel callback

    The callback is a C function pointer called for its effect.  Here it
    is a function on the state [World] it acts upon; [color] and
    [user_data] are opaque pointers that the library only hands on. *)

Section Callback.
Context {World Color UserData : Type}.

Definition ascii_pixel_fn : Type := Z → Z → Color → UserData → World → World.

Definition ascii_draw_char (c x y : Z) (pixel_fn : ascii_pixel_fn)
    (color : Color) (user_data : UserData) (w : World) : World :=
  let bitmap := ascii_get_char_bitmap c in
  for_each (seqZ 0 ASCII_FONT_HEIGHT) (λ row,
    for_each (seqZ 0 ASCII_FONT_WIDTH) (λ col w,
      if pixel_on bitmap row col
      then pixel_fn (int_add x col) (int_add y row) color user_data w
      else w)) w.

(** A C string is the memory [ptr] points to, read one [char] at a time.
    [while ( *ptr )] stops at the first zero; memory that ends before any
    zero is a string without terminator, for which the C program has no
    defined result: [None]. *)
Fixpoint ascii_draw_text_loop (ptr : list Z) (x current_y start_x : Z)
    (pixel_fn : ascii_pixel_fn) (color : Color) (user_data : UserData)
    (w : World) : option (World * Z) :=
  match ptr with
  | [] => None
  | ch :: ptr' =>
      if ch =? 0 then Some (w, x)
      else if ch =? 10 (* '\n' *) then
        ascii_draw_text_loop ptr' start_x (int_add current_y ASCII_FONT_HEIGHT) start_x
          pixel_fn color user_data w
      else
        ascii_draw_text_loop ptr' (int_add x ASCII_FONT_WIDTH) current_y start_x
          pixel_fn color user_data
          (ascii_draw_char ch x current_y pixel_fn color user_data w)
  end.

(** The result pairs the state the callbacks leave with the returned
    [int]. *)
Definition ascii_draw_text (text : list Z) (x y : Z) (pixel_fn : ascii_pixel_fn)
    (color : Color) (user_data : UserData) (w : World) : option (World * Z) :=
  let start_x := x in
  let current_y := y in
  match ascii_draw_text_loop text x current_y start_x pixel_fn color user_data w with
  | Some (w', x') => Some (w', int_sub x' start_x)
  | None => None
  end.

(** The callback that only records its calls, in the order they are
    made. *)
Definition pixel_call : Type := Z * Z * Color * UserData.

Definition record_pixel (x y : Z) (color : Color) (user_data : UserData)
    (calls : list pixel_call) : list pixel_call :=
  calls ++ [(x, y, color, user_data)].
End Callback.

Arguments ascii_pixel_fn : clear implicits.
Arguments pixel_call : clear implicits.

(** *** Drawing into a buffer

    [buffer[idx] = color] is the only effect of the two buffer draws.  They
    are written over an arbitrary store operation on a memory [Mem], which
    is then taken to be the caller's array ([buffer_store]) or the record of
    the stores made ([record_store]). *)

Section BufferDraw.
Context {Mem : Type} (store : Z → Z → Mem → Mem).

Definition draw_char_to_mono_buffer_with (c : Z) (buffer : Mem)
    (buf_width buf_height x y : Z) (color : ascii_mono_color_t) : Mem :=
  if (x <? 0) || (y <? 0) || (x >=? buf_width) || (y >=? buf_height)
  then buffer
  else
    let bitmap := ascii_get_char_bitmap c in
    for_each_break (seqZ 0 ASCII_FONT_HEIGHT) (λ row buffer,
      let py := int_add y row in
      if py >=? buf_height then None
      else Some (
        for_each_break (seqZ 0 ASCII_FONT_WIDTH) (λ col buffer,
          let px := int_add x col in
          if px >=? buf_width then None
          else Some (
            if pixel_on bitmap row col
            then store (int_add (int_mul py buf_width) px) color buffer
            else buffer)) buffer)) buffer.

Definition draw_char_to_rgb565_buffer_with (c : Z) (buffer : Mem)
    (buf_width buf_height x y : Z) (color : ascii_rgb565_color_t) : Mem :=
  if (x <? 0) || (y <? 0) || (x >=? buf_width) || (y >=? buf_height)
  then buffer
  else
    let bitmap := ascii_get_char_bitmap c in
    for_each_break (seqZ 0 ASCII_FONT_HEIGHT) (λ row buffer,
      let py := int_add y row in
      if py >=? buf_height then None
      else Some (
        for_each_break (seqZ 0 ASCII_FONT_WIDTH) (λ col buffer,
          let px := int_add x col in
          if px >=? buf_width then None
          else Some (
            if pixel_on bitmap row col
            then store (int_add (int_mul py buf_width) px) color buffer
            else buffer)) buffer)) buffer.
End BufferDraw.

(** The caller's array, a list of cells, indexed by the [int] the draw
    computes.  A store below index 0 or past the end of the array is a
    store outside the array; it changes no cell of the array here.
    [buffer_draw_in_array] shows that the draws make no such store into an
    array of [buf_width * buf_height] cells when that product fits in
    [int]. *)
Definition buffer_store (idx v : Z) (buffer : list Z) : list Z :=
  if 0 <=? idx then <[Z.to_nat idx := v]> buffer else buffer.

Definition ascii_draw_char_to_mono_buffer (c : Z) (buffer : list Z)
    (buf_width buf_height x y : Z) (color : ascii_mono_color_t) : list Z :=
  draw_char_to_mono_buffer_with buffer_store c buffer buf_width buf_height x y color.

Definition ascii_draw_char_to_rgb565_buffer (c : Z) (buffer : list Z)
    (buf_width buf_height x y : Z) (color : ascii_rgb565_color_t) : list Z :=
  draw_char_to_rgb565_buffer_with buffer_store c buffer buf_width buf_height x y color.

(** The stores a draw makes, as (index, value) pairs in program order. *)
Definition record_store (idx v : Z) (stores : list (Z * Z)) : list (Z * Z) :=
  stores ++ [(idx, v)].

Definition mono_buffer_stores (c buf_width buf_height x y : Z)
    (color : ascii_mono_color_t) : list (Z * Z) :=
  draw_char_to_mono_buffer_with record_store c [] buf_width buf_height x y color.

Definition rgb565_buffer_stores (c buf_width buf_height x y : Z)
    (color : ascii_rgb565_color_t) : list (Z * Z) :=
  draw_char_to_rgb565_buffer_with record_store c [] buf_width buf_height x y color.

(** *** Utilities *)

Fixpoint ascii_text_width_loop (ptr : list Z) (width line_width : Z) : option Z :=
  match ptr with
  | [] => None
  | ch :: ptr' =>
      if ch =? 0 then Some (if line_width >? width then line_width else width)
      else if ch =? 10 (* '\n' *) then
        ascii_text_width_loop ptr'
          (if line_width >? width then line_width else width) 0
      else
        ascii_text_width_loop ptr' width (int_add line_width ASCII_FONT_WIDTH)
  end.

Definition ascii_text_width (text : list Z) : option Z :=
  ascii_text_width_loop text 0 0.

Fixpoint ascii_text_height_loop (ptr : list Z) (height : Z) : option Z :=
  match ptr with
  | [] => None
  | ch :: ptr' =>
      if ch =? 0 then Some height
      else if ch =? 10 (* '\n' *) then
        ascii_text_height_loop ptr' (int_add height ASCII_FONT_HEIGHT)
      else
        ascii_text_height_loop ptr' height
  end.

Definition ascii_text_height (text : list Z) : option Z :=
  ascii_text_height_loop text ASCII_FONT_HEIGHT.

(** ** Specification vocabulary *)

(** Bit [7 - col] of row [row]: the most significant bit of a row is its
    leftmost column. *)
Definition glyph_bit (bitmap : glyph) (row col : Z) : bool :=
  Z.testbit (bitmap_row bitmap row) (7 - col).

(** The cells of a glyph in row-major order: rows top to bottom, and the
    columns of a row left to right. *)
Definition glyph_cells : list (Z * Z) :=
  list_prod (seqZ 0 ASCII_FONT_HEIGHT) (seqZ 0 ASCII_FONT_WIDTH).

Definition row_major (a b : Z * Z) : Prop :=
  a.1 < b.1 ∨ (a.1 = b.1 ∧ a.2 < b.2).

#[global] Instance row_major_dec : RelDecision row_major.
Proof. intros a b. unfold row_major. apply _. Defined.

(** The (row, column) pairs of the set bits of a glyph, in row-major
    order. *)
Definition set_pixels (bitmap : glyph) : list (Z * Z) :=
  filter (λ rc, glyph_bit bitmap rc.1 rc.2) glyph_cells.

Definition blank_glyph : glyph := [0; 0; 0; 0; 0; 0; 0; 0].

Definition zero_glyph : glyph := [0x3E; 0x7F; 0x6B; 0x6B; 0x6B; 0x6B; 0x7F; 0x3E].

(** The memory [text] holds the terminated string [s]: the characters of
    [s], none of them zero, and then a zero. *)
Definition holds_string (text s : list Z) : Prop :=
  Forall (λ ch, ch ≠ 0) s ∧ ∃ rest, text = s ++ 0 :: rest.

(** The lines of a string: what lies between its ['\n'] characters.  A
    string of [n] newlines has [n + 1] lines, some of them maybe empty. *)
Fixpoint text_lines (s : list Z) : list (list Z) :=
  match s with
  | [] => [[]]
  | ch :: s' =>
      if ch =? 10 then [] :: text_lines s'
      else match text_lines s' with
           | l :: ls => (ch :: l) :: ls
           | [] => [[ch]]
           end
  end.

Definition line_width (l : list Z) : Z := ASCII_FONT_WIDTH * Z.of_nat (length l).

Definition last_line (s : list Z) : list Z := List.last (text_lines s) [].

Definition max_line_width (s : list Z) : Z :=
  foldr Z.max 0 (line_width <$> text_lines s).

Definition newline_count (s : list Z) : Z :=
  Z.of_nat (length (filter (λ ch, ch = 10) s)).

(** Replaying a record of stores on a memory. *)
Definition replay {Mem : Type} (store : Z → Z → Mem → Mem)
    (stores : list (Z * Z)) (m : Mem) : Mem :=
  fold_left (λ m s, store s.1 s.2 m) stores m.


(** The cell of column [px] and row [py] in a buffer [buf_width] wide. *)
Definition cell_index (buf_width px py : Z) : Z := py * buf_width + px.

(** The indices a buffer draw may store to: the cells under a set bit of
    the glyph that lie inside the buffer. *)
Definition drawn (bitmap : glyph) (buf_width buf_height x y idx : Z) : Prop :=
  ∃ row col,
    0 ≤ row < ASCII_FONT_HEIGHT ∧ 0 ≤ col < ASCII_FONT_WIDTH ∧
    glyph_bit bitmap row col = true ∧
    x + col < buf_width ∧ y + row < buf_height ∧
    idx = cell_index buf_width (x + col) (y + row).

(** The indices a loop that leaves at the first index where [out] holds
    runs its body on. *)
Fixpoint reached (out : Z → bool) (idx : list Z) : list Z :=
  match idx with
  | [] => []
  | i :: idx' => if out i then [] else i :: reached out idx'
  end.

(** The cells of the glyph the two loops of a buffer draw at [(x, y)]
    come to, in row-major order: the rows before the first one at or
    below [buf_height], and in each the columns before the first one at or
    right of [buf_width], row and column taken as the draw computes them. *)
Definition reached_cells (buf_width buf_height x y : Z) : list (Z * Z) :=
  list_prod (reached (λ row, int_add y row >=? buf_height) (seqZ 0 ASCII_FONT_HEIGHT))
            (reached (λ col, int_add x col >=? buf_width) (seqZ 0 ASCII_FONT_WIDTH)).

(** The set bits of the glyph among them. *)
Definition drawn_pixels (bitmap : glyph) (buf_width buf_height x y : Z) : list (Z * Z) :=
  filter (λ rc, glyph_bit bitmap rc.1 rc.2) (reached_cells buf_width buf_height x y).

(** The index a buffer draw at [(x, y)] computes for the pixel at row
    [rc.1] and column [rc.2] of the glyph. *)
Definition store_index (buf_width x y : Z) (rc : Z * Z) : Z :=
  int_add (int_mul (int_add y rc.1) buf_width) (int_add x rc.2).

(** A buffer whose dimensions are values of [int] and whose last cell has
    an index that is one. *)
Definition buffer_fits_int (buf_width buf_height : Z) : Prop :=
  buf_width ≤ INT_MAX ∧ buf_height ≤ INT_MAX ∧ buf_width * buf_height ≤ INT_MAX + 1.

(** The early return of the buffer draws. *)
Definition origin_rejected (buf_width buf_height x y : Z) : Prop :=
  x < 0 ∨ y < 0 ∨ buf_width ≤ x ∨ buf_height ≤ y.

#[global] Instance origin_rejected_dec (buf_width buf_height x y : Z) :
  Decision (origin_rejected buf_width buf_height x y).
Proof. unfold origin_rejected. apply _. Defined.

(** Lines put back together, a ['\n'] between one and the next. *)
Fixpoint join_lines (lines : list (list Z)) : list Z :=
  match lines with
  | [] => []
  | [l] => l
  | l :: lines' => l ++ 10 :: join_lines lines'
  end.

(** ** Vocabulary for the layout of a text *)

(** Where the characters of a line stand when the line starts at
    [(x, y)]: character [j] at [(x + 8 * j, y)], as values of [int]. *)
Definition place_line (x y : Z) (l : list Z) : list (Z * Z * Z) :=
  imap (λ j ch, (ch, int_wrap (x + ASCII_FONT_WIDTH * Z.of_nat j), int_wrap y)) l.

(** Where the characters of a list of lines stand when the first line
    starts at [(x, y)]: line [i] starts at [(x, y + 8 * i)]. *)
Definition place_lines (x y : Z) (lines : list (list Z)) : list (Z * Z * Z) :=
  concat (imap (λ i l, place_line x (y + ASCII_FONT_HEIGHT * Z.of_nat i) l) lines).

Definition text_layout (s : list Z) (x y : Z) : list (Z * Z * Z) :=
  place_lines x y (text_lines s).

(** Drawing placed characters one after the other. *)
Definition draw_placed {World Color UserData : Type}
    (pixel_fn : ascii_pixel_fn World Color UserData) (color : Color)
    (user_data : UserData) (places : list (Z * Z * Z)) (w : World) : World :=
  fold_left (λ w p, ascii_draw_char p.1.1 p.1.2 p.2 pixel_fn color user_data w) places w.

(** ** Vocabulary for buffer draws *)

(** A pixel callback that stores into a buffer the pixels left of
    [buf_width] and above [buf_height], and drops the others. *)
Definition clip_store (buf_width buf_height : Z) : ascii_pixel_fn (list Z) Z unit :=
  λ px py color _ buffer,
    if (px <? buf_width) && (py <? buf_height)
    then buffer_store (int_add (int_mul py buf_width) px) color buffer
    else buffer.

(** The 8 by 8 cells at [(x1, y1)] and at [(x2, y2)] do not overlap. *)
Definition cells_apart (x1 y1 x2 y2 : Z) : Prop :=
  x1 + ASCII_FONT_WIDTH ≤ x2 ∨ x2 + ASCII_FONT_WIDTH ≤ x1 ∨
  y1 + ASCII_FONT_HEIGHT ≤ y2 ∨ y2 + ASCII_FONT_HEIGHT ≤ y1.

(** ** Vocabulary for widths and heights as values of [int] *)

(** The greatest line width as the loop of [ascii_text_width] sees it:
    each width as the [int] it has become. *)
Definition int_max_line_width (s : list Z) : Z :=
  foldr Z.max 0 ((λ l, int_wrap (line_width l)) <$> text_lines s).

(** Every line is short enough for its width to be a value of [int]: fewer
    than [2^28] characters. *)
Definition lines_fit_int (s : list Z) : Prop :=
  Forall (λ l, line_width l ≤ INT_MAX) (text_lines s).

(** The height 8 + 8 * newlines is a value of [int]. *)
Definition height_fits_int (s : list Z) : Prop :=
  ASCII_FONT_HEIGHT + ASCII_FONT_HEIGHT * newline_count s ≤ INT_MAX.

(** The 8 by 8 cell at [(x, y)] has [int] coordinates throughout. *)
Definition cell_fits_int (x y : Z) : Prop :=
  fits_int x ∧ fits_int y ∧
  x + ASCII_FONT_WIDTH - 1 ≤ INT_MAX ∧ y + ASCII_FONT_HEIGHT - 1 ≤ INT_MAX.

(** The rectangle of a text drawn at [(x, y)] has [int] coordinates
    throughout, and its width and height are values of [int]. *)
Definition text_area_fits_int (s : list Z) (x y : Z) : Prop :=
  fits_int x ∧ fits_int y ∧ lines_fit_int s ∧ height_fits_int s ∧
  x + max_line_width s ≤ INT_MAX + 1 ∧
  y + (ASCII_FONT_HEIGHT + ASCII_FONT_HEIGHT * newline_count s) ≤ INT_MAX + 1.
(** * Properties *)

(** ** Arithmetic of [int] *)

Lemma int_wrap_fits (z : Z) : fits_int z → int_wrap z = z.
Proof.
  unfold fits_int, INT_MIN, INT_MAX, int_wrap. intros Hz.
  rewrite Z.mod_small by lia. lia.
Qed.

Lemma int_wrap_range (z : Z) : fits_int (int_wrap z).
Proof.
  unfold fits_int, INT_MIN, INT_MAX, int_wrap.
  pose proof (Z.mod_pos_bound (z + 2147483648) 4294967296). lia.
Qed.

Lemma int_wrap_add_l (a b : Z) : int_wrap (int_wrap a + b) = int_wrap (a + b).
Proof.
  unfold int_wrap. f_equal.
  replace ((a + 2147483648) mod 4294967296 - 2147483648 + b + 2147483648)
    with ((a + 2147483648) mod 4294967296 + b) by lia.
  rewrite Zplus_mod_idemp_l. f_equal. lia.
Qed.

Lemma int_wrap_add_r (a b : Z) : int_wrap (a + int_wrap b) = int_wrap (a + b).
Proof. rewrite (Z.add_comm a), int_wrap_add_l. f_equal. lia. Qed.

Lemma int_wrap_idem (z : Z) : int_wrap (int_wrap z) = int_wrap z.
Proof. apply int_wrap_fits, int_wrap_range. Qed.

Lemma int_wrap_sub_l (a b : Z) : int_wrap (int_wrap a - b) = int_wrap (a - b).
Proof. exact (int_wrap_add_l a (- b)). Qed.

Lemma int_add_wrap_l (a b : Z) : int_add (int_wrap a) b = int_add a b.
Proof. apply int_wrap_add_l. Qed.

Lemma int_add_fits (a b : Z) : fits_int (a + b) → int_add a b = a + b.
Proof. apply int_wrap_fits. Qed.

Lemma int_mul_fits (a b : Z) : fits_int (a * b) → int_mul a b = a * b.
Proof. apply int_wrap_fits. Qed.

(** Two values of [int] that wrap to the same value are equal. *)
Lemma int_wrap_inj (a b : Z) :
  fits_int a → fits_int b → int_wrap a = int_wrap b → a = b.
Proof. intros Ha Hb. rewrite !int_wrap_fits by assumption. trivial. Qed.

(** ** Bit tests *)

Lemma land_bit_testbit (a n : Z) :
  0 ≤ n → negb (Z.land a (Z.shiftl 1 n) =? 0) = Z.testbit a n.
Proof.
  intros Hn. rewrite Z.shiftl_1_l.
  destruct (Z.testbit a n) eqn:Hbit.
  - apply negb_true_iff, Z.eqb_neq. intros Hz.
    assert (Z.testbit (Z.land a (2 ^ n)) n = true) as Hl.
    { rewrite Z.land_spec, Hbit, Z.pow2_bits_true; trivial. }
    rewrite Hz, Z.bits_0 in Hl. discriminate.
  - apply negb_false_iff, Z.eqb_eq, Z.bits_inj'. intros m Hm.
    rewrite Z.land_spec, Z.bits_0.
    destruct (Z.eq_dec n m) as [<-|Hne].
    + rewrite Hbit. reflexivity.
    + rewrite (Z.pow2_bits_false n m) by assumption. apply andb_false_r.
Qed.

Lemma pixel_on_glyph_bit (bitmap : glyph) (row col : Z) :
  col ≤ 7 → pixel_on bitmap row col = glyph_bit bitmap row col.
Proof. intros Hc. apply land_bit_testbit. lia. Qed.

(** ** The glyph table *)

Lemma ascii_font_length : Z.of_nat (length ascii_font) = ASCII_CHAR_COUNT.
Proof. reflexivity. Qed.

Lemma font_entries_checked :
  Forall (λ i, font_entry i = if i =? 16 then zero_glyph else blank_glyph)
         (seqZ 0 ASCII_CHAR_COUNT).
Proof. refine (bool_decide_unpack _ _). vm_compute. exact I. Qed.

Lemma font_entry_shipped (i : Z) :
  0 ≤ i < ASCII_CHAR_COUNT →
  font_entry i = if i =? 16 then zero_glyph else blank_glyph.
Proof.
  intros Hi. pose proof font_entries_checked as Hall.
  rewrite Forall_forall in Hall. apply Hall, elem_of_seqZ. lia.
Qed.

(** Both indices of the lookup are inside the table. *)
Lemma font_entry_in_table (i : Z) :
  0 ≤ i < ASCII_CHAR_COUNT → ascii_font !! Z.to_nat i = Some (font_entry i).
Proof.
  intros Hi. unfold font_entry.
  destruct (lookup_lt_is_Some_2 ascii_font (Z.to_nat i)) as [g Hg].
  { apply Nat2Z.inj_lt. rewrite ascii_font_length, Z2Nat.id; lia. }
  rewrite Hg. f_equal. symmetry. apply nth_lookup_Some with (d := []) in Hg.
  exact Hg.
Qed.

Lemma get_char_bitmap_outside (c : Z) :
  c < ASCII_FIRST_CHAR ∨ ASCII_LAST_CHAR ≤ c →
  ascii_get_char_bitmap c = font_entry 0.
Proof.
  intros Hc. unfold ascii_get_char_bitmap.
  destruct (Z.ltb_spec c ASCII_FIRST_CHAR); [reflexivity|].
  destruct (Z.geb_spec c ASCII_LAST_CHAR); [reflexivity|lia].
Qed.

Lemma get_char_bitmap_inside (c : Z) :
  ASCII_FIRST_CHAR ≤ c < ASCII_LAST_CHAR →
  ascii_get_char_bitmap c = font_entry (c - ASCII_FIRST_CHAR).
Proof.
  intros Hc. unfold ascii_get_char_bitmap.
  destruct (Z.ltb_spec c ASCII_FIRST_CHAR); [lia|].
  destruct (Z.geb_spec c ASCII_LAST_CHAR); [lia|reflexivity].
Qed.

Lemma get_char_bitmap_shipped (c : Z) :
  ascii_get_char_bitmap c = if c =? 48 then zero_glyph else blank_glyph.
Proof.
  destruct (Z_lt_le_dec c ASCII_FIRST_CHAR) as [Hlo|Hlo];
    [|destruct (Z_lt_le_dec c ASCII_LAST_CHAR) as [Hhi|Hhi]].
  - rewrite get_char_bitmap_outside by (left; exact Hlo).
    unfold ASCII_FIRST_CHAR in Hlo.
    destruct (Z.eqb_spec c 48); [lia|reflexivity].
  - rewrite get_char_bitmap_inside by (split; assumption).
    unfold ASCII_FIRST_CHAR, ASCII_LAST_CHAR in Hlo, Hhi.
    rewrite font_entry_shipped
      by (unfold ASCII_CHAR_COUNT, ASCII_FIRST_CHAR, ASCII_LAST_CHAR; lia).
    unfold ASCII_FIRST_CHAR.
    destruct (Z.eqb_spec (c - 32) 16), (Z.eqb_spec c 48); try lia; reflexivity.
  - rewrite get_char_bitmap_outside by (right; exact Hhi).
    unfold ASCII_LAST_CHAR in Hhi.
    destruct (Z.eqb_spec c 48); [lia|reflexivity].
Qed.

(** C3. A character code outside [ASCII_FIRST_CHAR, ASCII_LAST_CHAR) is
    given the glyph at index 0 of the table, which is also the glyph of
    [ASCII_FIRST_CHAR] (the space); a code inside the range is given the
    table entry at index [code - ASCII_FIRST_CHAR].  The lookup is a total
    function of the code and of the constant table alone. *)
Theorem ascii_get_char_bitmap_fallback (c : Z) :
  (c < ASCII_FIRST_CHAR ∨ ASCII_LAST_CHAR ≤ c →
     ascii_font !! 0%nat = Some (ascii_get_char_bitmap c) ∧
     ascii_get_char_bitmap c = ascii_get_char_bitmap ASCII_FIRST_CHAR) ∧
  (ASCII_FIRST_CHAR ≤ c < ASCII_LAST_CHAR →
     ascii_font !! Z.to_nat (c - ASCII_FIRST_CHAR) = Some (ascii_get_char_bitmap c)).
Proof.
  split.
  - intros Hout. rewrite (get_char_bitmap_outside c Hout). split.
    + exact (font_entry_in_table 0 ltac:(vm_compute; split; congruence)).
    + reflexivity.
  - intros Hin. rewrite (get_char_bitmap_inside c Hin).
    apply font_entry_in_table.
    unfold ASCII_CHAR_COUNT. lia.
Qed.

Lemma ascii_get_char_bitmap_fallback_witness :
  (ascii_font !! 0%nat = Some (ascii_get_char_bitmap 200) ∧
   ascii_get_char_bitmap 200 = ascii_get_char_bitmap ASCII_FIRST_CHAR) ∧
  (ascii_font !! 0%nat = Some (ascii_get_char_bitmap (-3)) ∧
   ascii_get_char_bitmap (-3) = ascii_get_char_bitmap ASCII_FIRST_CHAR) ∧
  ascii_font !! Z.to_nat (48 - ASCII_FIRST_CHAR) = Some (ascii_get_char_bitmap 48).
Proof.
  split; [|split].
  - apply (proj1 (ascii_get_char_bitmap_fallback 200)).
    right. unfold ASCII_LAST_CHAR. lia.
  - apply (proj1 (ascii_get_char_bitmap_fallback (-3))).
    left. unfold ASCII_FIRST_CHAR. lia.
  - apply (proj2 (ascii_get_char_bitmap_fallback 48)).
    unfold ASCII_FIRST_CHAR, ASCII_LAST_CHAR. lia.
Defined.

(** ** Loops *)

Section Loops.
Context {St : Type}.

Lemma for_each_app (idx1 idx2 : list Z) (body : Z → St → St) (st : St) :
  for_each (idx1 ++ idx2) body st = for_each idx2 body (for_each idx1 body st).
Proof. apply fold_left_app. Qed.

(** Two nested loops visit the pairs of their indices in row-major order. *)
Lemma for_each_nested (rows cols : list Z) (body : Z → Z → St → St) (st : St) :
  for_each rows (λ r, for_each cols (body r)) st
  = fold_left (λ s rc, body rc.1 rc.2 s) (list_prod rows cols) st.
Proof.
  revert st. induction rows as [|r rows IH]; intros st; [reflexivity|].
  cbn. rewrite fold_left_app, <- IH. f_equal.
  unfold for_each. generalize st. clear.
  induction cols as [|c cols IHc]; intros st; [reflexivity|].
  cbn. apply IHc.
Qed.

(** A loop whose body acts only when a test holds is the loop over the
    elements that pass the test. *)
Lemma fold_left_guarded {A : Type} (test : A → bool) (act : A → St → St)
    (l : list A) (st : St) :
  fold_left (λ s a, if test a then act a s else s) l st
  = fold_left (λ s a, act a s) (filter (λ a, test a) l) st.
Proof.
  revert st. induction l as [|a l IH]; intros st; [reflexivity|].
  rewrite filter_cons. cbn. destruct (test a); cbn; apply IH.
Qed.

Lemma fold_left_ext_in {A : Type} (f g : St → A → St) (l : list A) (st : St) :
  (∀ a s, a ∈ l → f s a = g s a) → fold_left f l st = fold_left g l st.
Proof.
  revert st. induction l as [|a l IH]; intros st Hfg; [reflexivity|].
  cbn. rewrite Hfg by left. apply IH. intros b s Hb. apply Hfg. right. exact Hb.
Qed.

Lemma fold_left_fmap {A B : Type} (h : A → B) (f : St → B → St) (l : list A) (st : St) :
  fold_left f (h <$> l) st = fold_left (λ s a, f s (h a)) l st.
Proof. revert st. induction l as [|a l IH]; intros st; [reflexivity|]. cbn. apply IH. Qed.
End Loops.

(** Appending one record per step lists the steps in order. *)
Lemma fold_left_record {A B : Type} (h : A → B) (l : list A) (t : list B) :
  fold_left (λ t a, t ++ [h a]) l t = t ++ (h <$> l).
Proof.
  revert t. induction l as [|a l IH]; intros t; cbn.
  - symmetry. apply app_nil_r.
  - rewrite IH, <- app_assoc. reflexivity.
Qed.

(** ** The cells of a glyph *)

Lemma elem_of_glyph_cells (row col : Z) :
  (row, col) ∈ glyph_cells ↔
  0 ≤ row < ASCII_FONT_HEIGHT ∧ 0 ≤ col < ASCII_FONT_WIDTH.
Proof.
  unfold glyph_cells. rewrite list_elem_of_In, in_prod_iff, <- !list_elem_of_In.
  rewrite !elem_of_seqZ. lia.
Qed.

Lemma glyph_cells_NoDup : NoDup glyph_cells.
Proof. refine (bool_decide_unpack _ _). vm_compute. exact I. Qed.



Lemma elem_of_set_pixels (bitmap : glyph) (row col : Z) :
  (row, col) ∈ set_pixels bitmap ↔
  0 ≤ row < ASCII_FONT_HEIGHT ∧ 0 ≤ col < ASCII_FONT_WIDTH ∧
  glyph_bit bitmap row col = true.
Proof.
  unfold set_pixels. rewrite list_elem_of_filter, elem_of_glyph_cells. cbn.
  rewrite Is_true_true. tauto.
Qed.

Lemma bitmap_row_blank (row : Z) : bitmap_row blank_glyph row = 0.
Proof.
  unfold bitmap_row, blank_glyph.
  generalize (Z.to_nat row) as n. intros n.
  do 8 (destruct n as [|n]; [reflexivity|]). destruct n; reflexivity.
Qed.

Lemma glyph_bit_blank (row col : Z) : glyph_bit blank_glyph row col = false.
Proof. unfold glyph_bit. rewrite bitmap_row_blank. apply Z.bits_0. Qed.

Lemma set_pixels_blank : set_pixels blank_glyph = [].
Proof. reflexivity. Qed.

(** ** Drawing one character through the callback *)

Section CallbackFacts.
Context {World Color UserData : Type}.
Implicit Types (pixel_fn : ascii_pixel_fn World Color UserData).

Lemma ascii_draw_char_set_pixels pixel_fn (c x y : Z) (color : Color)
    (user_data : UserData) (w : World) :
  ascii_draw_char c x y pixel_fn color user_data w
  = fold_left (λ w rc, pixel_fn (int_add x rc.2) (int_add y rc.1) color user_data w)
      (set_pixels (ascii_get_char_bitmap c)) w.
Proof.
  unfold ascii_draw_char. cbv zeta.
  rewrite (for_each_nested _ _
    (λ row col w, if pixel_on (ascii_get_char_bitmap c) row col
                  then pixel_fn (int_add x col) (int_add y row) color user_data w else w)).
  fold glyph_cells. cbn beta.
  rewrite (fold_left_ext_in _
    (λ w rc, if glyph_bit (ascii_get_char_bitmap c) rc.1 rc.2
             then pixel_fn (int_add x rc.2) (int_add y rc.1) color user_data w else w)).
  - apply (fold_left_guarded (λ rc, glyph_bit (ascii_get_char_bitmap c) rc.1 rc.2)
             (λ rc w, pixel_fn (int_add x rc.2) (int_add y rc.1) color user_data w)).
  - intros [row col] s Hin. apply elem_of_glyph_cells in Hin. cbn.
    rewrite pixel_on_glyph_bit; [reflexivity|]. unfold ASCII_FONT_WIDTH in Hin. lia.
Qed.

(** Only the [int] values of the origin count. *)
Lemma ascii_draw_char_wrap pixel_fn (c x y : Z) (color : Color)
    (user_data : UserData) (w : World) :
  ascii_draw_char c (int_wrap x) (int_wrap y) pixel_fn color user_data w
  = ascii_draw_char c x y pixel_fn color user_data w.
Proof.
  rewrite !ascii_draw_char_set_pixels. apply fold_left_ext_in. intros rc s _.
  rewrite !int_add_wrap_l. reflexivity.
Qed.

End CallbackFacts.

(** The calls of a draw: one for each set bit, in row-major order, at the
    [int] sums of the origin and the column and row of the bit. *)
Lemma ascii_draw_char_record {Color UserData : Type} (c x y : Z) (color : Color)
    (user_data : UserData) (calls : list (pixel_call Color UserData)) :
  ascii_draw_char c x y record_pixel color user_data calls
  = calls ++ ((λ rc, (int_add x rc.2, int_add y rc.1, color, user_data))
                <$> set_pixels (ascii_get_char_bitmap c)).
Proof.
  rewrite ascii_draw_char_set_pixels. unfold record_pixel.
  apply (fold_left_record (λ rc, (int_add x rc.2, int_add y rc.1, color, user_data))).
Qed.


(** Inside a cell of [int] coordinates the sums are exact. *)
Lemma cell_fits_int_add (x y row col : Z) :
  cell_fits_int x y →
  0 ≤ row < ASCII_FONT_HEIGHT → 0 ≤ col < ASCII_FONT_WIDTH →
  int_add x col = x + col ∧ int_add y row = y + row.
Proof.
  unfold cell_fits_int, fits_int, INT_MIN, INT_MAX, ASCII_FONT_WIDTH, ASCII_FONT_HEIGHT.
  intros (Hx & Hy & Hxw & Hyh) Hrow Hcol.
  split; apply int_add_fits; unfold fits_int, INT_MIN, INT_MAX; lia.
Qed.

Lemma ascii_draw_char_record_exact {Color UserData : Type} (c x y : Z) (color : Color)
    (user_data : UserData) :
  cell_fits_int x y →
  ascii_draw_char c x y record_pixel color user_data []
  = (λ rc, (x + rc.2, y + rc.1, color, user_data)) <$> set_pixels (ascii_get_char_bitmap c).
Proof.
  intros Hcell. rewrite ascii_draw_char_record, app_nil_l.
  apply list_fmap_ext. intros i [row col] Hin. cbn.
  apply list_elem_of_lookup_2, elem_of_set_pixels in Hin. destruct Hin as (Hrow & Hcol & _).
  destruct (cell_fits_int_add x y row col Hcell Hrow Hcol) as [-> ->]. reflexivity.
Qed.





(** The digit 0 drawn at (100, 200): the five set bits of its first row
    [0x3E], then the seven of its second row [0x7F]. *)
Example ascii_draw_char_zero_first_rows :
  take 12 (ascii_draw_char 48 100 200 record_pixel tt tt [])
  = [(102, 200, tt, tt); (103, 200, tt, tt); (104, 200, tt, tt);
     (105, 200, tt, tt); (106, 200, tt, tt);
     (101, 201, tt, tt); (102, 201, tt, tt); (103, 201, tt, tt);
     (104, 201, tt, tt); (105, 201, tt, tt); (106, 201, tt, tt);
     (107, 201, tt, tt)].
Proof. reflexivity. Qed.

(** ** Loops that break *)

Section BreakLoops.
Context {St : Type}.

(** A loop that leaves at the first index where its exit test holds runs
    its body on the indices before that one. *)
Lemma for_each_break_reached (out : Z → bool) (step : Z → St → St) (idx : list Z) (st : St) :
  for_each_break idx (λ i s, if out i then None else Some (step i s)) st
  = for_each (reached out idx) step st.
Proof.
  revert st. induction idx as [|i idx IH]; intros st; [reflexivity|].
  cbn. destruct (out i); [reflexivity|]. cbn. apply IH.
Qed.

Lemma for_each_ext_in (f g : Z → St → St) (idx : list Z) (st : St) :
  (∀ i s, i ∈ idx → f i s = g i s) → for_each idx f st = for_each idx g st.
Proof. intros Hfg. apply fold_left_ext_in. intros i s Hi. apply Hfg, Hi. Qed.
End BreakLoops.

Lemma reached_elem_of (out : Z → bool) (idx : list Z) (i : Z) :
  i ∈ reached out idx → i ∈ idx.
Proof.
  induction idx as [|j idx IH]; cbn; [trivial|].
  destruct (out j); [intros Hi; apply elem_of_nil in Hi; contradiction|].
  intros Hi. apply elem_of_cons in Hi. destruct Hi as [->|Hi]; [left|right; auto].
Qed.

Lemma elem_of_reached_cells (buf_width buf_height x y row col : Z) :
  (row, col) ∈ reached_cells buf_width buf_height x y →
  0 ≤ row < ASCII_FONT_HEIGHT ∧ 0 ≤ col < ASCII_FONT_WIDTH.
Proof.
  unfold reached_cells. rewrite list_elem_of_In, in_prod_iff, <- !list_elem_of_In.
  intros [Hrow Hcol]. apply reached_elem_of, elem_of_seqZ in Hrow.
  apply reached_elem_of, elem_of_seqZ in Hcol. lia.
Qed.

(** ** Drawing one character into a buffer *)

Lemma origin_check_rejected (buf_width buf_height x y : Z) :
  (x <? 0) || (y <? 0) || (x >=? buf_width) || (y >=? buf_height) = true
  ↔ origin_rejected buf_width buf_height x y.
Proof.
  unfold origin_rejected.
  rewrite !orb_true_iff, !Z.ltb_lt, !Z.geb_le. tauto.
Qed.

Section BufferDrawFacts.
Context {Mem : Type} (store : Z → Z → Mem → Mem).

(** The draw is the stores to the drawn pixels, in row-major order, each
    at the index the draw computes for it. *)
Lemma draw_char_to_mono_buffer_with_drawn (c : Z) (m : Mem)
    (buf_width buf_height x y : Z) (color : ascii_mono_color_t) :
  draw_char_to_mono_buffer_with store c m buf_width buf_height x y color
  = if decide (origin_rejected buf_width buf_height x y) then m
    else fold_left (λ s rc, store (store_index buf_width x y rc) color s)
           (drawn_pixels (ascii_get_char_bitmap c) buf_width buf_height x y) m.
Proof.
  unfold draw_char_to_mono_buffer_with.
  destruct (decide (origin_rejected buf_width buf_height x y)) as [Hrej|Hrej].
  { apply origin_check_rejected in Hrej. rewrite Hrej. reflexivity. }
  rewrite <- origin_check_rejected in Hrej. apply not_true_is_false in Hrej.
  rewrite Hrej. cbv zeta.
  set (bitmap := ascii_get_char_bitmap c).
  rewrite (for_each_break_reached (λ row, int_add y row >=? buf_height)
             (λ row buffer,
                for_each_break (seqZ 0 ASCII_FONT_WIDTH)
                  (λ col buffer,
                     if int_add x col >=? buf_width then None
                     else Some (if pixel_on bitmap row col
                                then store (int_add (int_mul (int_add y row) buf_width)
                                                    (int_add x col)) color buffer
                                else buffer)) buffer)).
  rewrite (for_each_ext_in _
    (λ row, for_each (reached (λ col, int_add x col >=? buf_width) (seqZ 0 ASCII_FONT_WIDTH))
       (λ col s, if pixel_on bitmap row col
                 then store (int_add (int_mul (int_add y row) buf_width) (int_add x col))
                        color s
                 else s))).
  2:{ intros row s _.
      apply (for_each_break_reached (λ col, int_add x col >=? buf_width)
               (λ col buffer, if pixel_on bitmap row col
                              then store (int_add (int_mul (int_add y row) buf_width)
                                                  (int_add x col)) color buffer
                              else buffer)). }
  rewrite (for_each_nested _ _
    (λ row col s, if pixel_on bitmap row col
                  then store (int_add (int_mul (int_add y row) buf_width) (int_add x col))
                         color s
                  else s)).
  fold (reached_cells buf_width buf_height x y). unfold drawn_pixels.
  rewrite <- (fold_left_guarded
    (λ rc, glyph_bit bitmap rc.1 rc.2)
    (λ rc s, store (store_index buf_width x y rc) color s)).
  apply fold_left_ext_in. intros [row col] s Hin. cbn.
  apply elem_of_reached_cells in Hin. unfold ASCII_FONT_WIDTH in Hin.
  rewrite pixel_on_glyph_bit by lia. reflexivity.
Qed.

Lemma draw_char_to_rgb565_buffer_with_mono (c : Z) (m : Mem)
    (buf_width buf_height x y : Z) (color : Z) :
  draw_char_to_rgb565_buffer_with store c m buf_width buf_height x y color
  = draw_char_to_mono_buffer_with store c m buf_width buf_height x y color.
Proof. reflexivity. Qed.
End BufferDrawFacts.

Lemma mono_buffer_stores_drawn (c buf_width buf_height x y : Z) (color : ascii_mono_color_t) :
  mono_buffer_stores c buf_width buf_height x y color
  = if decide (origin_rejected buf_width buf_height x y) then []
    else (λ rc, (store_index buf_width x y rc, color))
           <$> drawn_pixels (ascii_get_char_bitmap c) buf_width buf_height x y.
Proof.
  unfold mono_buffer_stores. rewrite draw_char_to_mono_buffer_with_drawn.
  destruct (decide (origin_rejected buf_width buf_height x y)); [reflexivity|].
  unfold record_store.
  apply (fold_left_record (λ rc, (store_index buf_width x y rc, color))).
Qed.

Lemma rgb565_buffer_stores_mono (c buf_width buf_height x y color : Z) :
  rgb565_buffer_stores c buf_width buf_height x y color
  = mono_buffer_stores c buf_width buf_height x y color.
Proof. reflexivity. Qed.

(** Whatever a store does to the memory, a draw is its recorded stores
    made one after the other. *)
Lemma draw_char_to_mono_buffer_with_replay {Mem : Type} (store : Z → Z → Mem → Mem)
    (c : Z) (m : Mem) (buf_width buf_height x y : Z) (color : ascii_mono_color_t) :
  draw_char_to_mono_buffer_with store c m buf_width buf_height x y color
  = replay store (mono_buffer_stores c buf_width buf_height x y color) m.
Proof.
  rewrite draw_char_to_mono_buffer_with_drawn, mono_buffer_stores_drawn.
  destruct (decide (origin_rejected buf_width buf_height x y)); [reflexivity|].
  unfold replay. rewrite fold_left_fmap. reflexivity.
Qed.

Lemma mono_buffer_stores_color (c buf_width buf_height x y : Z) (color : ascii_mono_color_t) :
  Forall (λ s, s.2 = color) (mono_buffer_stores c buf_width buf_height x y color).
Proof.
  rewrite mono_buffer_stores_drawn.
  destruct (decide (origin_rejected buf_width buf_height x y)); [constructor|].
  apply Forall_fmap, Forall_forall. intros rc _. reflexivity.
Qed.

(** *** When the buffer fits in [int] *)

Lemma filter_none {A : Type} (P : A → Prop) `{∀ a, Decision (P a)} (l : list A) :
  Forall (λ a, ¬ P a) l → filter P l = [].
Proof.
  induction 1 as [|a l Ha Hl IH]; [reflexivity|].
  rewrite filter_cons_False by exact Ha. exact IH.
Qed.

Lemma filter_all {A : Type} (P : A → Prop) `{∀ a, Decision (P a)} (l : list A) :
  Forall P l → filter P l = l.
Proof.
  induction 1 as [|a l Ha Hl IH]; [reflexivity|].
  rewrite filter_cons_True by exact Ha. rewrite IH. reflexivity.
Qed.

(** With a limit that is an [int] and a cursor that starts below it, the
    cursor is compared before it can leave [int]: the loop comes to the
    indices whose exact sum is below the limit. *)
Lemma reached_exit_test (base limit k n : Z) :
  0 ≤ base → 0 ≤ k → base + k ≤ limit → limit ≤ INT_MAX →
  reached (λ i, int_add base i >=? limit) (seqZ k n)
  = filter (λ i, base + i < limit) (seqZ k n).
Proof.
  intros Hbase Hk Hle Hlimit.
  remember (Z.to_nat n) as fuel eqn:Hfuel. revert k n Hk Hle Hfuel.
  induction fuel as [|fuel IH]; intros k n Hk Hle Hfuel.
  - rewrite seqZ_nil by lia. reflexivity.
  - rewrite seqZ_cons by lia. cbn [reached]. rewrite filter_cons.
    rewrite int_add_fits by (unfold fits_int, INT_MIN, INT_MAX in *; lia).
    destruct (Z.geb_spec (base + k) limit) as [Hout|Hin];
      destruct (decide (base + k < limit)) as [Hlt|Hge]; try lia.
    + symmetry. apply filter_none, Forall_forall. intros i Hi.
      apply elem_of_seqZ in Hi. lia.
    + f_equal. apply IH; lia.
Qed.

Lemma filter_pairs_with {A B : Type} (P : A → Prop) (Q : B → Prop)
    `{∀ a, Decision (P a)} `{∀ b, Decision (Q b)} (a : A) (l2 : list B) :
  filter (λ p : A * B, P p.1 ∧ Q p.2) (map (λ b, (a, b)) l2)
  = if decide (P a) then map (λ b, (a, b)) (filter Q l2) else [].
Proof.
  induction l2 as [|b l2 IH]; [destruct (decide (P a)); reflexivity|].
  cbn [map]. rewrite !filter_cons, IH. cbn [fst snd].
  destruct (decide (P a)), (decide (Q b)), (decide (P a ∧ Q b)); try tauto; reflexivity.
Qed.

Lemma list_prod_filter {A B : Type} (P : A → Prop) (Q : B → Prop)
    `{∀ a, Decision (P a)} `{∀ b, Decision (Q b)} (l1 : list A) (l2 : list B) :
  list_prod (filter P l1) (filter Q l2)
  = filter (λ p, P p.1 ∧ Q p.2) (list_prod l1 l2).
Proof.
  induction l1 as [|a l1 IH]; [reflexivity|].
  cbn [list_prod]. rewrite filter_app, <- IH, filter_cons, filter_pairs_with.
  destruct (decide (P a)); reflexivity.
Qed.

Lemma reached_cells_exact (buf_width buf_height x y : Z) :
  ¬ origin_rejected buf_width buf_height x y →
  buf_width ≤ INT_MAX → buf_height ≤ INT_MAX →
  reached_cells buf_width buf_height x y
  = filter (λ rc, y + rc.1 < buf_height ∧ x + rc.2 < buf_width) glyph_cells.
Proof.
  unfold origin_rejected. intros Horigin Hw Hh. unfold reached_cells, glyph_cells.
  rewrite !reached_exit_test by lia.
  rewrite (list_prod_filter (λ row, y + row < buf_height) (λ col, x + col < buf_width)).
  apply list_filter_iff. intros rc. tauto.
Qed.

Lemma drawn_pixels_exact (bitmap : glyph) (buf_width buf_height x y : Z) :
  ¬ origin_rejected buf_width buf_height x y →
  buf_width ≤ INT_MAX → buf_height ≤ INT_MAX →
  drawn_pixels bitmap buf_width buf_height x y
  = filter (λ rc, x + rc.2 < buf_width ∧ y + rc.1 < buf_height) (set_pixels bitmap).
Proof.
  intros Horigin Hw Hh. unfold drawn_pixels, set_pixels.
  rewrite reached_cells_exact by assumption. rewrite !list_filter_filter.
  apply list_filter_iff. intros rc. tauto.
Qed.

Lemma elem_of_drawn_pixels (bitmap : glyph) (buf_width buf_height x y row col : Z) :
  ¬ origin_rejected buf_width buf_height x y →
  buf_width ≤ INT_MAX → buf_height ≤ INT_MAX →
  (row, col) ∈ drawn_pixels bitmap buf_width buf_height x y ↔
  0 ≤ row < ASCII_FONT_HEIGHT ∧ 0 ≤ col < ASCII_FONT_WIDTH ∧
  glyph_bit bitmap row col = true ∧ x + col < buf_width ∧ y + row < buf_height.
Proof.
  intros Horigin Hw Hh. rewrite drawn_pixels_exact by assumption.
  rewrite list_elem_of_filter, elem_of_set_pixels. cbn. tauto.
Qed.

(** A cell index determines its column and row in a buffer of the given
    width. *)
Lemma cell_index_inj (buf_width px py px' py' : Z) :
  0 ≤ px < buf_width → 0 ≤ px' < buf_width →
  cell_index buf_width px py = cell_index buf_width px' py' →
  px = px' ∧ py = py'.
Proof.
  unfold cell_index. intros Hpx Hpx' Heq.
  assert ((py - py') * buf_width = px' - px) as Hdiff by lia.
  destruct (Z.lt_trichotomy py py') as [Hlt|[Heq'|Hgt]]; [|subst; lia|].
  - assert (1 * buf_width ≤ (py' - py) * buf_width) by (apply Z.mul_le_mono_nonneg_r; lia). lia.
  - assert (1 * buf_width ≤ (py - py') * buf_width) by (apply Z.mul_le_mono_nonneg_r; lia). lia.
Qed.

Lemma cell_index_bounds (buf_width buf_height px py : Z) :
  0 ≤ px < buf_width → 0 ≤ py < buf_height →
  0 ≤ cell_index buf_width px py < buf_width * buf_height.
Proof. unfold cell_index. intros Hpx Hpy. nia. Qed.

(** In a buffer that fits in [int], the index the draw computes for a cell
    inside the buffer is the exact one. *)
Lemma store_index_exact (buf_width buf_height x y row col : Z) :
  buffer_fits_int buf_width buf_height →
  0 ≤ x + col < buf_width → 0 ≤ y + row < buf_height →
  store_index buf_width x y (row, col) = cell_index buf_width (x + col) (y + row).
Proof.
  unfold buffer_fits_int. intros (Hw & Hh & Hcells) Hpx Hpy.
  pose proof (cell_index_bounds buf_width buf_height _ _ Hpx Hpy) as Hidx.
  unfold cell_index in *. unfold store_index. cbn [fst snd].
  assert (0 ≤ (y + row) * buf_width) as Hprod by nia.
  rewrite (int_add_fits y row) by (unfold fits_int, INT_MIN, INT_MAX in *; lia).
  rewrite (int_add_fits x col) by (unfold fits_int, INT_MIN, INT_MAX in *; lia).
  rewrite int_mul_fits by (unfold fits_int, INT_MIN, INT_MAX in *; lia).
  apply int_add_fits. unfold fits_int, INT_MIN, INT_MAX in *. lia.
Qed.

(** Every recorded store into a buffer that fits in [int] is to the cell of
    a drawn pixel, with the color of the call. *)
Lemma elem_of_mono_buffer_stores (c buf_width buf_height x y : Z)
    (color : ascii_mono_color_t) (idx v : Z) :
  buffer_fits_int buf_width buf_height →
  (idx, v) ∈ mono_buffer_stores c buf_width buf_height x y color ↔
  ¬ origin_rejected buf_width buf_height x y ∧ v = color ∧
  drawn (ascii_get_char_bitmap c) buf_width buf_height x y idx.
Proof.
  intros Hfits. pose proof Hfits as (Hw & Hh & _).
  rewrite mono_buffer_stores_drawn. unfold drawn.
  destruct (decide (origin_rejected buf_width buf_height x y)) as [Hrej|Hrej].
  - rewrite elem_of_nil. tauto.
  - assert (0 ≤ x ∧ 0 ≤ y) as [Hx Hy] by (unfold origin_rejected in Hrej; lia).
    rewrite list_elem_of_fmap. split.
    + intros ([row col] & Heq & Hin).
      apply elem_of_drawn_pixels in Hin; [|assumption..].
      destruct Hin as (Hrow & Hcol & Hbit & Hpx & Hpy).
      rewrite (store_index_exact buf_width buf_height) in Heq by (trivial; lia).
      injection Heq as -> ->. split; [exact Hrej|].
      split; [reflexivity|]. exists row, col. tauto.
    + intros (_ & -> & row & col & Hr & Hc & Hbit & Hpx & Hpy & ->).
      exists (row, col). split.
      * rewrite (store_index_exact buf_width buf_height) by (trivial; lia). reflexivity.
      * apply elem_of_drawn_pixels; [assumption..|]. tauto.
Qed.

(** ** Stores into the array *)

Lemma buffer_store_length (idx v : Z) (buffer : list Z) :
  length (buffer_store idx v buffer) = length buffer.
Proof. unfold buffer_store. destruct (0 <=? idx); [apply length_insert|reflexivity]. Qed.

Lemma buffer_store_lookup (idx v : Z) (buffer : list Z) (i : nat) :
  buffer_store idx v buffer !! i
  = if decide (idx = Z.of_nat i) then (λ _, v) <$> buffer !! i else buffer !! i.
Proof.
  unfold buffer_store. destruct (Z.leb_spec 0 idx) as [Hidx|Hidx].
  - destruct (decide (idx = Z.of_nat i)) as [->|Hne].
    + rewrite Nat2Z.id. destruct (buffer !! i) as [old|] eqn:Hold.
      * apply list_lookup_insert_eq. eapply lookup_lt_Some, Hold.
      * rewrite list_insert_ge; [exact Hold|]. apply lookup_ge_None, Hold.
    + apply list_lookup_insert_ne. intros <-. apply Hne. symmetry. apply Z2Nat.id, Hidx.
  - destruct (decide (idx = Z.of_nat i)); [lia|reflexivity].
Qed.

Lemma replay_cons {Mem : Type} (store : Z → Z → Mem → Mem) (s : Z * Z)
    (stores : list (Z * Z)) (m : Mem) :
  replay store (s :: stores) m = replay store stores (store s.1 s.2 m).
Proof. reflexivity. Qed.

Lemma replay_buffer_store_length (stores : list (Z * Z)) (buffer : list Z) :
  length (replay buffer_store stores buffer) = length buffer.
Proof.
  revert buffer. induction stores as [|s stores IH]; intros buffer; [reflexivity|].
  rewrite replay_cons, IH. apply buffer_store_length.
Qed.

(** A cell that no store names keeps its value. *)
Lemma replay_buffer_store_other (stores : list (Z * Z)) (buffer : list Z) (i : nat) :
  (∀ s, s ∈ stores → s.1 ≠ Z.of_nat i) →
  replay buffer_store stores buffer !! i = buffer !! i.
Proof.
  revert buffer. induction stores as [|s stores IH]; intros buffer Hother; [reflexivity|].
  rewrite replay_cons, IH.
  - rewrite buffer_store_lookup.
    destruct (decide (s.1 = Z.of_nat i)) as [Heq|]; [|reflexivity].
    exfalso. apply (Hother s); [left|exact Heq].
  - intros s' Hs'. apply Hother. right. exact Hs'.
Qed.

(** When all stores carry one value, a cell of the array holds that value
    if some store names it, and its old value if none does. *)
Lemma replay_buffer_store_lookup (v : Z) (stores : list (Z * Z)) (buffer : list Z) (i : nat) :
  Forall (λ s, s.2 = v) stores →
  replay buffer_store stores buffer !! i
  = if decide (Z.of_nat i ∈ stores.*1) then (λ _, v) <$> buffer !! i else buffer !! i.
Proof.
  intros Hv. revert buffer.
  induction Hv as [|s stores Hs Hv IH]; intros buffer.
  - cbn. destruct (decide (Z.of_nat i ∈ [])) as [Hin|]; [|reflexivity].
    apply elem_of_nil in Hin. contradiction.
  - rewrite replay_cons, IH, buffer_store_lookup, Hs. rewrite fmap_cons.
    destruct (decide (Z.of_nat i ∈ stores.*1)) as [Hin|Hin],
             (decide (s.1 = Z.of_nat i)) as [Heq|Hne],
             (decide (Z.of_nat i ∈ s.1 :: stores.*1)) as [Hin'|Hin'];
      try reflexivity.
    + destruct (buffer !! i); reflexivity.
    + exfalso. apply Hin'. right. exact Hin.
    + exfalso. apply Hin'. right. exact Hin.
    + exfalso. apply Hin'. rewrite Heq. left.
    + apply elem_of_cons in Hin'. destruct Hin' as [Heq|Hin']; [|contradiction].
      exfalso. apply Hne. symmetry. exact Heq.
Qed.

Lemma replay_buffer_store_idempotent (v : Z) (stores : list (Z * Z)) (buffer : list Z) :
  Forall (λ s, s.2 = v) stores →
  replay buffer_store stores (replay buffer_store stores buffer)
  = replay buffer_store stores buffer.
Proof.
  intros Hv. apply list_eq. intros i.
  rewrite !(replay_buffer_store_lookup v) by exact Hv.
  destruct (decide (Z.of_nat i ∈ stores.*1)); [|reflexivity].
  destruct (buffer !! i); reflexivity.
Qed.

Lemma ascii_draw_char_to_mono_buffer_replay (c : Z) (buffer : list Z)
    (buf_width buf_height x y : Z) (color : ascii_mono_color_t) :
  ascii_draw_char_to_mono_buffer c buffer buf_width buf_height x y color
  = replay buffer_store (mono_buffer_stores c buf_width buf_height x y color) buffer.
Proof. apply draw_char_to_mono_buffer_with_replay. Qed.

Lemma ascii_draw_char_to_rgb565_buffer_mono (c : Z) (buffer : list Z)
    (buf_width buf_height x y color : Z) :
  ascii_draw_char_to_rgb565_buffer c buffer buf_width buf_height x y color
  = ascii_draw_char_to_mono_buffer c buffer buf_width buf_height x y color.
Proof. reflexivity. Qed.

(** The RGB565 draw is the mono draw word for word: what is proved of one
    holds of the other. *)
Ltac rgb565_as_mono :=
  change ascii_draw_char_to_rgb565_buffer with ascii_draw_char_to_mono_buffer;
  change rgb565_buffer_stores with mono_buffer_stores.

(** A cell after the draw: the color if the draw stores to it, and what it
    held if not. *)
Lemma mono_buffer_draw_lookup (c : Z) (buffer : list Z) (buf_width buf_height x y : Z)
    (color : ascii_mono_color_t) (i : nat) :
  ascii_draw_char_to_mono_buffer c buffer buf_width buf_height x y color !! i
  = if decide (Z.of_nat i ∈ (mono_buffer_stores c buf_width buf_height x y color).*1)
    then (λ _, color) <$> buffer !! i
    else buffer !! i.
Proof.
  rewrite ascii_draw_char_to_mono_buffer_replay.
  apply replay_buffer_store_lookup, mono_buffer_stores_color.
Qed.

Lemma elem_of_mono_store_indices (c buf_width buf_height x y : Z)
    (color : ascii_mono_color_t) (idx : Z) :
  buffer_fits_int buf_width buf_height →
  idx ∈ (mono_buffer_stores c buf_width buf_height x y color).*1 ↔
  ¬ origin_rejected buf_width buf_height x y ∧
  drawn (ascii_get_char_bitmap c) buf_width buf_height x y idx.
Proof.
  intros Hfits. rewrite list_elem_of_fmap. split.
  - intros ([idx' v] & -> & Hin).
    apply (elem_of_mono_buffer_stores _ _ _ _ _ _ _ _ Hfits) in Hin. cbn. tauto.
  - intros (Horigin & Hdrawn). exists (idx, color). split; [reflexivity|].
    apply elem_of_mono_buffer_stores; [exact Hfits|]. tauto.
Qed.

(** The coordinates of a drawn cell. *)
Lemma drawn_in_buffer (bitmap : glyph) (buf_width buf_height x y idx : Z) :
  ¬ origin_rejected buf_width buf_height x y →
  drawn bitmap buf_width buf_height x y idx →
  ∃ px py, 0 ≤ px < buf_width ∧ 0 ≤ py < buf_height ∧
           idx = py * buf_width + px ∧ 0 ≤ idx < buf_width * buf_height.
Proof.
  unfold origin_rejected. intros Horigin (row & col & Hr & Hc & _ & Hx & Hy & ->).
  exists (x + col), (y + row).
  assert (0 ≤ x + col < buf_width) as Hpx by lia.
  assert (0 ≤ y + row < buf_height) as Hpy by lia.
  split; [exact Hpx|]. split; [exact Hpy|]. split; [reflexivity|].
  apply cell_index_bounds; assumption.
Qed.

(** An array of [buf_width * buf_height] cells, or more, holds every cell
    a draw stores to, when the buffer fits in [int]. *)
Lemma buffer_draw_in_array (c buf_width buf_height x y : Z) (color : ascii_mono_color_t)
    (buffer : list Z) :
  buffer_fits_int buf_width buf_height →
  buf_width * buf_height ≤ Z.of_nat (length buffer) →
  Forall (λ s : Z * Z, 0 ≤ s.1 < Z.of_nat (length buffer))
         (mono_buffer_stores c buf_width buf_height x y color).
Proof.
  intros Hfits Hlen. apply Forall_forall. intros [idx v] Hin.
  apply (elem_of_mono_buffer_stores _ _ _ _ _ _ _ _ Hfits) in Hin.
  destruct Hin as (Horigin & _ & Hdrawn).
  destruct (drawn_in_buffer _ _ _ _ _ _ Horigin Hdrawn) as (px & py & _ & _ & _ & Hidx).
  cbn. lia.
Qed.

(** C2. Whatever the memory and its store operation, a buffer draw is its
    recorded stores made one after the other.  When [buf_width] and
    [buf_height] are values of [int] and [buf_width * buf_height] is at
    most [INT_MAX + 1], so that the index of every cell is a value of
    [int], every recorded store, of the mono draw and of the RGB565 draw,
    is to an index [py * buf_width + px] with [0 <= px < buf_width] and
    [0 <= py < buf_height]: a cell of the [buf_width] by [buf_height]
    rectangle, inside an array of [buf_width * buf_height] cells. *)
Theorem buffer_draw_stores_in_bounds (c buf_width buf_height x y color : Z) :
  buffer_fits_int buf_width buf_height →
  let inside (s : Z * Z) :=
    ∃ px py, 0 ≤ px < buf_width ∧ 0 ≤ py < buf_height ∧
             s.1 = py * buf_width + px ∧ 0 ≤ s.1 < buf_width * buf_height in
  (∀ (Mem : Type) (store : Z → Z → Mem → Mem) (m : Mem),
     draw_char_to_mono_buffer_with store c m buf_width buf_height x y color
     = replay store (mono_buffer_stores c buf_width buf_height x y color) m) ∧
  (∀ (Mem : Type) (store : Z → Z → Mem → Mem) (m : Mem),
     draw_char_to_rgb565_buffer_with store c m buf_width buf_height x y color
     = replay store (rgb565_buffer_stores c buf_width buf_height x y color) m) ∧
  (∀ buffer,
     ascii_draw_char_to_mono_buffer c buffer buf_width buf_height x y color
     = replay buffer_store (mono_buffer_stores c buf_width buf_height x y color) buffer) ∧
  (∀ buffer,
     ascii_draw_char_to_rgb565_buffer c buffer buf_width buf_height x y color
     = replay buffer_store (rgb565_buffer_stores c buf_width buf_height x y color) buffer) ∧
  Forall inside (mono_buffer_stores c buf_width buf_height x y color) ∧
  Forall inside (rgb565_buffer_stores c buf_width buf_height x y color).
Proof.
  intros Hfits. cbv zeta.
  assert (Forall (λ s : Z * Z,
            ∃ px py, 0 ≤ px < buf_width ∧ 0 ≤ py < buf_height ∧
                     s.1 = py * buf_width + px ∧ 0 ≤ s.1 < buf_width * buf_height)
            (mono_buffer_stores c buf_width buf_height x y color)) as Hmono.
  { apply Forall_forall. intros [idx v] Hin.
    apply (elem_of_mono_buffer_stores _ _ _ _ _ _ _ _ Hfits) in Hin.
    destruct Hin as (Horigin & _ & Hdrawn).
    exact (drawn_in_buffer _ _ _ _ _ _ Horigin Hdrawn). }
  split; [intros Mem store m; apply draw_char_to_mono_buffer_with_replay|].
  split; [intros Mem store m; apply (draw_char_to_mono_buffer_with_replay store)|].
  rgb565_as_mono.
  split; [intros buffer; apply ascii_draw_char_to_mono_buffer_replay|].
  split; [intros buffer; apply ascii_draw_char_to_mono_buffer_replay|].
  split; exact Hmono.
Qed.

Lemma buffer_draw_stores_in_bounds_witness :
  Forall (λ s : Z * Z,
            ∃ px py, 0 ≤ px < 10 ∧ 0 ≤ py < 12 ∧
                     s.1 = py * 10 + px ∧ 0 ≤ s.1 < 10 * 12)
         (mono_buffer_stores 48 10 12 5 6 1).
Proof.
  apply (buffer_draw_stores_in_bounds 48 10 12 5 6 1).
  unfold buffer_fits_int, INT_MAX. lia.
Defined.

(** In a buffer of [2^30] by 3 cells the draw of the digit 0 at the origin
    computes, for its row 2, the product [2 * 2^30], which is no [int]:
    the store for column 1 goes to index [-2147483647], before the array,
    and that is the index of no cell of the rectangle. *)
Lemma buffer_draw_stores_outside_large_buffer :
  ((-2147483647, 1) ∈ mono_buffer_stores 48 1073741824 3 0 0 1) ∧
  ((-2147483647, 1) ∈ rgb565_buffer_stores 48 1073741824 3 0 0 1) ∧
  ¬ (∃ px py, 0 ≤ px < 1073741824 ∧ 0 ≤ py < 3 ∧ -2147483647 = py * 1073741824 + px).
Proof.
  split; [refine (bool_decide_unpack _ _); vm_compute; exact I|].
  split; [refine (bool_decide_unpack _ _); vm_compute; exact I|].
  intros (px & py & Hpx & Hpy & Heq). lia.
Qed.

Lemma mono_buffer_draw_rejected (c : Z) (buffer : list Z)
    (buf_width buf_height x y : Z) (color : ascii_mono_color_t) :
  origin_rejected buf_width buf_height x y →
  ascii_draw_char_to_mono_buffer c buffer buf_width buf_height x y color = buffer.
Proof.
  intros Hrej. unfold ascii_draw_char_to_mono_buffer.
  rewrite draw_char_to_mono_buffer_with_drawn.
  destruct (decide (origin_rejected buf_width buf_height x y)); [reflexivity|contradiction].
Qed.

Lemma mono_buffer_draw_other (c : Z) (buffer : list Z)
    (buf_width buf_height x y : Z) (color : ascii_mono_color_t) (i : nat) :
  buffer_fits_int buf_width buf_height →
  ¬ drawn (ascii_get_char_bitmap c) buf_width buf_height x y (Z.of_nat i) →
  ascii_draw_char_to_mono_buffer c buffer buf_width buf_height x y color !! i = buffer !! i.
Proof.
  intros Hfits Hother. rewrite ascii_draw_char_to_mono_buffer_replay.
  apply replay_buffer_store_other. intros [idx v] Hin Heq. cbn in Heq. subst idx.
  apply (elem_of_mono_buffer_stores _ _ _ _ _ _ _ _ Hfits) in Hin. tauto.
Qed.

(** A cell of the array that a store names holds the color afterwards. *)
Lemma mono_buffer_draw_stored (c : Z) (buffer : list Z)
    (buf_width buf_height x y : Z) (color : ascii_mono_color_t) (idx old : Z) :
  0 ≤ idx → buffer !! Z.to_nat idx = Some old →
  idx ∈ (mono_buffer_stores c buf_width buf_height x y color).*1 →
  ascii_draw_char_to_mono_buffer c buffer buf_width buf_height x y color !! Z.to_nat idx
  = Some color.
Proof.
  intros Hidx Hold Hin. rewrite mono_buffer_draw_lookup, Z2Nat.id by exact Hidx.
  destruct (decide (idx ∈ (mono_buffer_stores c buf_width buf_height x y color).*1));
    [|contradiction].
  rewrite Hold. reflexivity.
Qed.

Lemma drawn_pixels_no_bits (bitmap : glyph) (buf_width buf_height x y : Z) :
  (∀ row col, 0 ≤ row < ASCII_FONT_HEIGHT → 0 ≤ col < ASCII_FONT_WIDTH →
     glyph_bit bitmap row col = false) →
  drawn_pixels bitmap buf_width buf_height x y = [].
Proof.
  intros Hblank. unfold drawn_pixels. apply filter_none, Forall_forall.
  intros [row col] Hin. apply elem_of_reached_cells in Hin. cbn.
  rewrite (Hblank row col) by tauto. exact id.
Qed.

Lemma mono_buffer_draw_no_bits (c : Z) (buffer : list Z)
    (buf_width buf_height x y : Z) (color : ascii_mono_color_t) :
  (∀ row col, 0 ≤ row < ASCII_FONT_HEIGHT → 0 ≤ col < ASCII_FONT_WIDTH →
     glyph_bit (ascii_get_char_bitmap c) row col = false) →
  ascii_draw_char_to_mono_buffer c buffer buf_width buf_height x y color = buffer.
Proof.
  intros Hblank. unfold ascii_draw_char_to_mono_buffer.
  rewrite draw_char_to_mono_buffer_with_drawn, drawn_pixels_no_bits by exact Hblank.
  destruct (decide (origin_rejected buf_width buf_height x y)); reflexivity.
Qed.

(** The cell at column [px] and row [py] of the buffer is drawn only if it
    lies under a set bit of the glyph placed at [(x, y)]. *)
Lemma drawn_cell_under_set_bit (bitmap : glyph) (buf_width buf_height x y px py : Z) :
  ¬ origin_rejected buf_width buf_height x y →
  0 ≤ px < buf_width →
  drawn bitmap buf_width buf_height x y (cell_index buf_width px py) →
  0 ≤ py - y < ASCII_FONT_HEIGHT ∧ 0 ≤ px - x < ASCII_FONT_WIDTH ∧
  glyph_bit bitmap (py - y) (px - x) = true.
Proof.
  unfold origin_rejected. intros Horigin Hpx (row & col & Hr & Hc & Hbit & Hx & Hy & Heq).
  apply cell_index_inj in Heq; [|exact Hpx|lia].
  destruct Heq as [-> ->].
  replace (y + row - y) with row by lia. replace (x + col - x) with col by lia.
  tauto.
Qed.

(** C7. (1) When the origin fails the bounds check, a buffer draw returns
    the buffer as it was.  (2) In every case the buffer keeps its length,
    and a glyph without set bits leaves the whole buffer as it was.  When
    [buf_width] and [buf_height] are values of [int] and
    [buf_width * buf_height] is at most [INT_MAX + 1], a cell keeps its
    value unless its index is that of a set bit of the glyph inside the
    buffer; seen by coordinates, the cell at column [px] and row [py]
    keeps its value unless [(py - y, px - x)] is a set bit of the glyph,
    be it a cleared bit of the footprint or a place outside of it.  The
    mono and the RGB565 draw alike. *)
Theorem buffer_draw_frame (c : Z) (buffer : list Z) (buf_width buf_height x y color : Z) :
  let bitmap := ascii_get_char_bitmap c in
  let mono := ascii_draw_char_to_mono_buffer c buffer buf_width buf_height x y color in
  let rgb565 := ascii_draw_char_to_rgb565_buffer c buffer buf_width buf_height x y color in
  (origin_rejected buf_width buf_height x y → mono = buffer ∧ rgb565 = buffer) ∧
  (length mono = length buffer ∧ length rgb565 = length buffer) ∧
  (buffer_fits_int buf_width buf_height →
   ∀ i : nat, ¬ drawn bitmap buf_width buf_height x y (Z.of_nat i) →
     mono !! i = buffer !! i ∧ rgb565 !! i = buffer !! i) ∧
  (buffer_fits_int buf_width buf_height →
   ∀ px py : Z, 0 ≤ px < buf_width → 0 ≤ py < buf_height →
     ¬ (0 ≤ py - y < ASCII_FONT_HEIGHT ∧ 0 ≤ px - x < ASCII_FONT_WIDTH ∧
        Z.testbit (bitmap_row bitmap (py - y)) (7 - (px - x)) = true) →
     mono !! Z.to_nat (py * buf_width + px) = buffer !! Z.to_nat (py * buf_width + px) ∧
     rgb565 !! Z.to_nat (py * buf_width + px) = buffer !! Z.to_nat (py * buf_width + px)) ∧
  ((∀ row col, 0 ≤ row < ASCII_FONT_HEIGHT → 0 ≤ col < ASCII_FONT_WIDTH →
      Z.testbit (bitmap_row bitmap row) (7 - col) = false) →
   mono = buffer ∧ rgb565 = buffer).
Proof.
  cbv zeta. rgb565_as_mono.
  split; [intros Hrej; split; apply mono_buffer_draw_rejected, Hrej|].
  split.
  { rewrite ascii_draw_char_to_mono_buffer_replay, replay_buffer_store_length. tauto. }
  split; [intros Hfits i Hother; split; apply mono_buffer_draw_other; assumption|].
  split; [|intros Hblank; split; apply mono_buffer_draw_no_bits, Hblank].
  intros Hfits px py Hpx Hpy Hclear.
  destruct (decide (origin_rejected buf_width buf_height x y)) as [Hrej|Horigin].
  { rewrite mono_buffer_draw_rejected by exact Hrej. tauto. }
  assert (¬ drawn (ascii_get_char_bitmap c) buf_width buf_height x y
            (Z.of_nat (Z.to_nat (py * buf_width + px)))) as Hother.
  { rewrite Z2Nat.id by (pose proof (cell_index_bounds _ _ _ _ Hpx Hpy) as Hb;
                          unfold cell_index in Hb; lia).
    intros Hdrawn. apply Hclear.
    exact (drawn_cell_under_set_bit _ _ _ _ _ _ _ Horigin Hpx Hdrawn). }
  split; apply mono_buffer_draw_other; assumption.
Qed.

Lemma buffer_draw_frame_witness :
  (ascii_draw_char_to_mono_buffer 48 (replicate 64 7) 8 8 (-1) 0 1 = replicate 64 7 ∧
   ascii_draw_char_to_rgb565_buffer 48 (replicate 64 7) 8 8 (-1) 0 1 = replicate 64 7) ∧
  (ascii_draw_char_to_mono_buffer 48 (replicate 64 7) 8 8 0 0 1 !! 0%nat
     = replicate 64 7 !! 0%nat ∧
   ascii_draw_char_to_rgb565_buffer 48 (replicate 64 7) 8 8 0 0 1 !! 0%nat
     = replicate 64 7 !! 0%nat) ∧
  (ascii_draw_char_to_mono_buffer 65 (replicate 64 7) 8 8 0 0 1 = replicate 64 7 ∧
   ascii_draw_char_to_rgb565_buffer 65 (replicate 64 7) 8 8 0 0 1 = replicate 64 7).
Proof.
  split; [|split].
  - apply (proj1 (buffer_draw_frame 48 (replicate 64 7) 8 8 (-1) 0 1)).
    left. lia.
  - apply (proj1 (proj2 (proj2 (proj2 (buffer_draw_frame 48 (replicate 64 7) 8 8 0 0 1))))
             ltac:(unfold buffer_fits_int, INT_MAX; lia) 0 0); [lia|lia|].
    vm_compute. intros (_ & _ & Hbit). discriminate Hbit.
  - apply (proj2 (proj2 (proj2 (proj2 (buffer_draw_frame 65 (replicate 64 7) 8 8 0 0 1))))).
    intros row col Hrow Hcol. apply (glyph_bit_blank row col).
Defined.

Lemma large_buffer_cell_one : replicate (Z.to_nat 5368709120) 0 !! Z.to_nat 1 = Some 0.
Proof. apply lookup_replicate_2. apply Z2Nat.inj_lt; lia. Qed.

Lemma buffer_draw_wraps_to_cell_one (buffer : list Z) :
  buffer !! Z.to_nat 1 = Some 0 →
  ascii_draw_char_to_mono_buffer 48 buffer 1073741824 5 0 0 1 !! Z.to_nat 1 = Some 1.
Proof.
  intros Hold.
  apply (mono_buffer_draw_stored 48 buffer 1073741824 5 0 0 1 1 0); [lia|exact Hold|].
  refine (bool_decide_unpack _ _). vm_compute. exact I.
Qed.

Lemma cell_one_not_drawn : ¬ drawn (ascii_get_char_bitmap 48) 1073741824 5 0 0 1.
Proof.
  intros (row & col & Hr & Hc & Hbit & _ & _ & Heq).
  unfold cell_index, ASCII_FONT_HEIGHT, ASCII_FONT_WIDTH in *.
  assert (row = 0 ∧ col = 1) as [-> ->] by lia.
  vm_compute in Hbit. discriminate Hbit.
Qed.

(** In a buffer of [2^30] by 5 cells, all zero, the draw of the digit 0 at
    the origin computes for its row 4 the product [4 * 2^30], which wraps
    to 0: the store for column 1 goes to index 1.  That is the cell of
    column 1 and row 0, under a cleared bit of the glyph and the cell of no
    set bit, and it does not keep its value. *)
Lemma buffer_draw_frame_fails_large_buffer :
  ¬ origin_rejected 1073741824 5 0 0 ∧
  Z.testbit (bitmap_row (ascii_get_char_bitmap 48) 0) (7 - 1) = false ∧
  ¬ drawn (ascii_get_char_bitmap 48) 1073741824 5 0 0 1 ∧
  replicate (Z.to_nat 5368709120) 0 !! Z.to_nat 1 = Some 0 ∧
  ascii_draw_char_to_mono_buffer 48 (replicate (Z.to_nat 5368709120) 0)
    1073741824 5 0 0 1 !! Z.to_nat 1 = Some 1.
Proof.
  split; [unfold origin_rejected; lia|].
  split; [reflexivity|].
  split; [exact cell_one_not_drawn|].
  split; [exact large_buffer_cell_one|].
  exact (buffer_draw_wraps_to_cell_one _ large_buffer_cell_one).
Qed.

(** C8. Drawing a character into a buffer a second time with the same
    arguments changes nothing: the buffer after two draws is the buffer
    after one, for the mono and for the RGB565 draw. *)
Theorem buffer_draw_idempotent (c : Z) (buffer : list Z) (buf_width buf_height x y color : Z) :
  ascii_draw_char_to_mono_buffer c
    (ascii_draw_char_to_mono_buffer c buffer buf_width buf_height x y color)
    buf_width buf_height x y color
  = ascii_draw_char_to_mono_buffer c buffer buf_width buf_height x y color ∧
  ascii_draw_char_to_rgb565_buffer c
    (ascii_draw_char_to_rgb565_buffer c buffer buf_width buf_height x y color)
    buf_width buf_height x y color
  = ascii_draw_char_to_rgb565_buffer c buffer buf_width buf_height x y color.
Proof.
  rgb565_as_mono. rewrite !ascii_draw_char_to_mono_buffer_replay.
  split; apply (replay_buffer_store_idempotent color), mono_buffer_stores_color.
Qed.

(** C9. With the same character, dimensions, origin and color, the mono
    draw and the RGB565 draw record the same stores, index and value, in
    the same order: none when the origin is rejected, and else one store
    of the color per drawn pixel, in row-major order, at the index the
    draw computes for the pixel.  Each draw is its recorded stores made on
    the array, so both leave the same cells.  The width of a cell in bytes
    is not part of this model. *)
Theorem mono_rgb565_same_stores (c buf_width buf_height x y color : Z) :
  let stores :=
    if decide (origin_rejected buf_width buf_height x y) then []
    else (λ rc, (int_add (int_mul (int_add y rc.1) buf_width) (int_add x rc.2), color))
           <$> drawn_pixels (ascii_get_char_bitmap c) buf_width buf_height x y in
  mono_buffer_stores c buf_width buf_height x y color = stores ∧
  rgb565_buffer_stores c buf_width buf_height x y color = stores ∧
  (∀ buffer,
     ascii_draw_char_to_mono_buffer c buffer buf_width buf_height x y color
     = replay buffer_store (mono_buffer_stores c buf_width buf_height x y color) buffer) ∧
  (∀ buffer,
     ascii_draw_char_to_rgb565_buffer c buffer buf_width buf_height x y color
     = replay buffer_store (rgb565_buffer_stores c buf_width buf_height x y color) buffer) ∧
  (∀ buffer,
     ascii_draw_char_to_mono_buffer c buffer buf_width buf_height x y color
     = ascii_draw_char_to_rgb565_buffer c buffer buf_width buf_height x y color).
Proof.
  cbv zeta.
  split; [apply mono_buffer_stores_drawn|].
  split; [rewrite rgb565_buffer_stores_mono; apply mono_buffer_stores_drawn|].
  split; [intros buffer; apply ascii_draw_char_to_mono_buffer_replay|].
  split; intros buffer.
  - rgb565_as_mono. apply ascii_draw_char_to_mono_buffer_replay.
  - symmetry. apply ascii_draw_char_to_rgb565_buffer_mono.
Qed.

(** ** The shipped glyphs *)

Lemma ascii_draw_char_blank {World Color UserData : Type}
    (pixel_fn : ascii_pixel_fn World Color UserData) (c x y : Z) (color : Color)
    (user_data : UserData) (w : World) :
  ascii_get_char_bitmap c = blank_glyph →
  ascii_draw_char c x y pixel_fn color user_data w = w.
Proof.
  intros Hblank. rewrite ascii_draw_char_set_pixels, Hblank, set_pixels_blank.
  reflexivity.
Qed.

(** C10. In the shipped table every entry but the one of the digit 0
    (ASCII 48, rows 0x3E 0x7F 0x6B 0x6B 0x6B 0x6B 0x7F 0x3E) is the bitmap
    of eight zero rows.  Hence a character other than the digit 0 has the
    all-zero glyph, drawing it invokes the callback not once and leaves
    the callback's state as it was, and both buffer draws return the
    buffer unchanged. *)
Theorem shipped_font_only_zero_digit (c : Z) :
  (∀ i, 0 ≤ i < ASCII_CHAR_COUNT → i ≠ 48 - ASCII_FIRST_CHAR →
     ascii_font !! Z.to_nat i = Some blank_glyph) ∧
  ascii_font !! Z.to_nat (48 - ASCII_FIRST_CHAR) = Some zero_glyph ∧
  ascii_get_char_bitmap 48 = zero_glyph ∧
  (c ≠ 48 →
     ascii_get_char_bitmap c = blank_glyph ∧
     (∀ (World Color UserData : Type) (pixel_fn : ascii_pixel_fn World Color UserData)
        x y color user_data w,
        ascii_draw_char c x y pixel_fn color user_data w = w) ∧
     (∀ (Color UserData : Type) x y (color : Color) (user_data : UserData),
        ascii_draw_char c x y record_pixel color user_data [] = []) ∧
     (∀ buffer buf_width buf_height x y color,
        ascii_draw_char_to_mono_buffer c buffer buf_width buf_height x y color = buffer ∧
        ascii_draw_char_to_rgb565_buffer c buffer buf_width buf_height x y color = buffer)).
Proof.
  split.
  { intros i Hi Hne. rewrite font_entry_in_table, font_entry_shipped by exact Hi.
    unfold ASCII_FIRST_CHAR in Hne. destruct (Z.eqb_spec i 16); [lia|reflexivity]. }
  split; [reflexivity|]. split; [reflexivity|].
  intros Hc.
  assert (ascii_get_char_bitmap c = blank_glyph) as Hblank.
  { rewrite get_char_bitmap_shipped. destruct (Z.eqb_spec c 48); [contradiction|reflexivity]. }
  split; [exact Hblank|].
  split; [intros; apply ascii_draw_char_blank, Hblank|].
  split; [intros; apply ascii_draw_char_blank, Hblank|].
  intros buffer buf_width buf_height x y color. rgb565_as_mono.
  split; apply mono_buffer_draw_no_bits; intros row col _ _;
    rewrite Hblank; apply glyph_bit_blank.
Qed.

Lemma shipped_font_only_zero_digit_witness :
  ascii_font !! Z.to_nat 33 = Some blank_glyph ∧
  ascii_get_char_bitmap 65 = blank_glyph ∧
  ascii_draw_char 65 3 4 record_pixel tt tt [] = [] ∧
  ascii_draw_char_to_mono_buffer 65 [5; 6; 7; 8] 2 2 0 0 1 = [5; 6; 7; 8].
Proof.
  split; [|split; [|split]].
  - apply (proj1 (shipped_font_only_zero_digit 65) 33);
      unfold ASCII_CHAR_COUNT, ASCII_LAST_CHAR, ASCII_FIRST_CHAR; lia.
  - apply (proj2 (proj2 (proj2 (shipped_font_only_zero_digit 65)))). lia.
  - apply (proj2 (proj2 (proj2 (shipped_font_only_zero_digit 65)))). lia.
  - apply (proj2 (proj2 (proj2 (shipped_font_only_zero_digit 65)))). lia.
Defined.

(** The digit 0 drawn at the origin of an 8 by 8 buffer of zeros: the
    rows of its glyph, bit by bit. *)
Example mono_buffer_zero_digit :
  ascii_draw_char_to_mono_buffer 48 (replicate 64 0) 8 8 0 0 1
  = [0; 0; 1; 1; 1; 1; 1; 0;
     0; 1; 1; 1; 1; 1; 1; 1;
     0; 1; 1; 0; 1; 0; 1; 1;
     0; 1; 1; 0; 1; 0; 1; 1;
     0; 1; 1; 0; 1; 0; 1; 1;
     0; 1; 1; 0; 1; 0; 1; 1;
     0; 1; 1; 1; 1; 1; 1; 1;
     0; 0; 1; 1; 1; 1; 1; 0].
Proof. reflexivity. Qed.

(** Near the right and bottom edges only the cells inside the buffer are
    stored to. *)
Example mono_buffer_stores_clipped :
  mono_buffer_stores 48 8 8 5 6 1 = [(55, 1); (62, 1); (63, 1)].
Proof. reflexivity. Qed.

(** ** Lines of a string *)

Lemma text_lines_nonempty (s : list Z) : ∃ l ls, text_lines s = l :: ls.
Proof.
  destruct s as [|ch s]; cbn; [eauto|].
  destruct (ch =? 10); [eauto|]. destruct (text_lines s); eauto.
Qed.

Lemma text_lines_newline (s : list Z) : text_lines (10 :: s) = [] :: text_lines s.
Proof. reflexivity. Qed.

Lemma text_lines_char (ch : Z) (s l : list Z) (ls : list (list Z)) :
  ch ≠ 10 → text_lines s = l :: ls → text_lines (ch :: s) = (ch :: l) :: ls.
Proof.
  intros Hch Hs. cbn. rewrite Hs. destruct (Z.eqb_spec ch 10); [contradiction|reflexivity].
Qed.

(** The lines are what lies between the newlines: joined with newlines
    they give the string back, and there is no newline inside a line. *)
Lemma join_text_lines (s : list Z) : join_lines (text_lines s) = s.
Proof.
  induction s as [|ch s IH]; [reflexivity|].
  destruct (text_lines_nonempty s) as (l & ls & Hs).
  destruct (Z.eq_dec ch 10) as [->|Hch].
  - rewrite text_lines_newline, Hs. rewrite Hs in IH. cbn in IH |- *. rewrite IH. reflexivity.
  - rewrite (text_lines_char ch s l ls Hch Hs). rewrite Hs in IH.
    destruct ls; cbn in IH |- *; rewrite IH; reflexivity.
Qed.

Lemma text_lines_no_newline (s : list Z) : Forall (λ l, 10 ∉ l) (text_lines s).
Proof.
  induction s as [|ch s IH].
  - constructor; [apply not_elem_of_nil|constructor].
  - destruct (text_lines_nonempty s) as (l & ls & Hs). rewrite Hs in IH.
    destruct (Z.eq_dec ch 10) as [->|Hch].
    + rewrite text_lines_newline, Hs. constructor; [apply not_elem_of_nil|exact IH].
    + rewrite (text_lines_char ch s l ls Hch Hs).
      inversion IH as [|? ? Hl Hls]; subst. constructor; [|exact Hls].
      rewrite not_elem_of_cons. split; [congruence|exact Hl].
Qed.

Lemma text_lines_single (s : list Z) : 10 ∉ s → text_lines s = [s].
Proof.
  induction s as [|ch s IH]; intros Hs; [reflexivity|].
  apply not_elem_of_cons in Hs. destruct Hs as [Hch Hs].
  apply (text_lines_char ch s s []); [congruence|apply IH, Hs].
Qed.

Lemma text_lines_ends_newline (s : list Z) :
  text_lines (s ++ [10]) = text_lines s ++ [[]].
Proof.
  induction s as [|ch s IH]; [reflexivity|].
  destruct (text_lines_nonempty s) as (l & ls & Hs).
  destruct (Z.eq_dec ch 10) as [->|Hch].
  - cbn [app]. rewrite !text_lines_newline, IH. reflexivity.
  - cbn [app]. rewrite (text_lines_char ch s l ls Hch Hs).
    rewrite (text_lines_char ch (s ++ [10]) l (ls ++ [[]]) Hch); [reflexivity|].
    rewrite IH, Hs. reflexivity.
Qed.

Lemma last_line_single (s : list Z) : 10 ∉ s → last_line s = s.
Proof. intros Hs. unfold last_line. rewrite text_lines_single by exact Hs. reflexivity. Qed.

Lemma last_line_ends_newline (s : list Z) : last_line (s ++ [10]) = [].
Proof. unfold last_line. rewrite text_lines_ends_newline. apply List.last_last. Qed.

Lemma line_width_cons (ch : Z) (l : list Z) :
  line_width (ch :: l) = ASCII_FONT_WIDTH + line_width l.
Proof. unfold line_width. cbn [length]. lia. Qed.

Lemma line_width_nonneg (l : list Z) : 0 ≤ line_width l.
Proof. unfold line_width, ASCII_FONT_WIDTH. lia. Qed.

Lemma newline_count_cons (ch : Z) (s : list Z) :
  newline_count (ch :: s) = (if ch =? 10 then 1 else 0) + newline_count s.
Proof.
  unfold newline_count. rewrite filter_cons.
  destruct (decide (ch = 10)) as [->|Hch].
  - cbn [length]. change (10 =? 10) with true. lia.
  - destruct (Z.eqb_spec ch 10); [contradiction|lia].
Qed.

(** ** Text metrics *)

Lemma gtb_max (a b : Z) : (if a >? b then a else b) = Z.max b a.
Proof. destruct (Z.gtb_spec a b); lia. Qed.

(** The height as the loop keeps it: the exact height, made an [int] at
    every newline. *)
Lemma ascii_text_height_loop_spec (s rest : list Z) (height : Z) :
  Forall (λ ch, ch ≠ 0) s → fits_int height →
  ascii_text_height_loop (s ++ 0 :: rest) height
  = Some (int_wrap (height + ASCII_FONT_HEIGHT * newline_count s)).
Proof.
  intros Hs. revert height.
  induction Hs as [|ch s Hch Hs IH]; intros height Hfits.
  - cbn. f_equal. change (newline_count []) with 0.
    rewrite Z.mul_0_r, Z.add_0_r. symmetry. apply int_wrap_fits, Hfits.
  - cbn [app ascii_text_height_loop]. rewrite newline_count_cons.
    destruct (Z.eqb_spec ch 0); [contradiction|].
    destruct (ch =? 10).
    + rewrite IH by apply int_wrap_range. f_equal. unfold int_add.
      rewrite int_wrap_add_l. f_equal. unfold ASCII_FONT_HEIGHT. lia.
    + rewrite IH by exact Hfits.
      replace (0 + newline_count s) with (newline_count s) by lia. reflexivity.
Qed.

(** The widths as the loop keeps them: the running line width is the
    exact one made an [int] at every character. *)
Lemma ascii_text_width_loop_spec (s rest l : list Z) (ls : list (list Z))
    (width line_w : Z) :
  Forall (λ ch, ch ≠ 0) s → 0 ≤ width → fits_int line_w →
  text_lines s = l :: ls →
  ascii_text_width_loop (s ++ 0 :: rest) width line_w
  = Some (Z.max (Z.max width (int_wrap (line_w + line_width l)))
                (foldr Z.max 0 ((λ l', int_wrap (line_width l')) <$> ls))).
Proof.
  intros Hs. revert l ls width line_w.
  induction Hs as [|ch s Hch Hs IH]; intros l ls width line_w Hw Hlw Hlines.
  - cbn in Hlines. injection Hlines as <- <-. cbn. rewrite gtb_max.
    f_equal. replace (line_w + line_width []) with line_w by (unfold line_width; cbn; lia).
    rewrite int_wrap_fits by exact Hlw. lia.
  - cbn [app ascii_text_width_loop].
    destruct (Z.eqb_spec ch 0); [contradiction|].
    destruct (text_lines_nonempty s) as (l' & ls' & Hs').
    destruct (Z.eqb_spec ch 10) as [->|Hnl].
    + rewrite text_lines_newline, Hs' in Hlines. injection Hlines as <- <-.
      rewrite gtb_max.
      rewrite (IH l' ls') by (trivial; unfold fits_int, INT_MIN, INT_MAX; lia).
      f_equal. rewrite fmap_cons. cbn [foldr].
      replace (line_w + line_width []) with line_w by (unfold line_width; cbn; lia).
      rewrite (int_wrap_fits line_w) by exact Hlw.
      replace (0 + line_width l') with (line_width l') by lia. lia.
    + rewrite (text_lines_char ch s l' ls' Hnl Hs') in Hlines. injection Hlines as <- <-.
      rewrite (IH l' ls') by (trivial; apply int_wrap_range).
      f_equal. unfold int_add. rewrite int_wrap_add_l, line_width_cons.
      do 3 f_equal. lia.
Qed.

Lemma foldr_max_nonneg (l : list Z) : 0 ≤ foldr Z.max 0 l.
Proof. induction l; cbn; lia. Qed.

Lemma ascii_text_width_int (text s : list Z) :
  holds_string text s → ascii_text_width text = Some (int_max_line_width s).
Proof.
  intros (Hs & rest & ->).
  destruct (text_lines_nonempty s) as (l & ls & Hlines).
  unfold ascii_text_width, int_max_line_width.
  rewrite (ascii_text_width_loop_spec s rest l ls)
    by (trivial; unfold fits_int, INT_MIN, INT_MAX; lia).
  rewrite Hlines, fmap_cons. cbn [foldr]. f_equal.
  replace (0 + line_width l) with (line_width l) by lia.
  pose proof (foldr_max_nonneg ((λ l', int_wrap (line_width l')) <$> ls)). lia.
Qed.

Lemma max_line_width_upper (s l : list Z) :
  l ∈ text_lines s → line_width l ≤ max_line_width s.
Proof.
  unfold max_line_width. generalize (text_lines s) as lines.
  induction lines as [|l' lines IH]; intros Hin.
  - apply elem_of_nil in Hin. contradiction.
  - rewrite fmap_cons. cbn [foldr]. apply elem_of_cons in Hin.
    destruct Hin as [->|Hin]; [lia|]. specialize (IH Hin). lia.
Qed.

Lemma max_line_width_reached (s : list Z) :
  ∃ l, l ∈ text_lines s ∧ line_width l = max_line_width s.
Proof.
  unfold max_line_width.
  assert (text_lines s ≠ []) as Hne.
  { destruct (text_lines_nonempty s) as (l & ls & ->). discriminate. }
  revert Hne. generalize (text_lines s) as lines.
  induction lines as [|l0 lines IH]; [congruence|]. intros _.
  destruct lines as [|l1 lines].
  - exists l0. split; [left|]. cbn. pose proof (line_width_nonneg l0). lia.
  - destruct IH as (l & Hin & Hl); [discriminate|].
    change (foldr Z.max 0 (line_width <$> l0 :: l1 :: lines))
      with (Z.max (line_width l0) (foldr Z.max 0 (line_width <$> l1 :: lines))).
    destruct (Z.max_spec (line_width l0) (foldr Z.max 0 (line_width <$> l1 :: lines)))
      as [[_ ->]|[_ ->]].
    + exists l. split; [right; exact Hin|exact Hl].
    + exists l0. split; [left|reflexivity].
Qed.

Lemma int_max_line_width_fits (s : list Z) :
  lines_fit_int s → int_max_line_width s = max_line_width s.
Proof.
  unfold lines_fit_int, int_max_line_width, max_line_width. intros Hfit.
  f_equal. apply list_fmap_ext. intros i l Hl.
  apply list_elem_of_lookup_2 in Hl. rewrite Forall_forall in Hfit.
  apply int_wrap_fits. pose proof (line_width_nonneg l). specialize (Hfit l Hl).
  unfold fits_int, INT_MIN. lia.
Qed.

Lemma holds_string_terminated (s : list Z) :
  Forall (λ ch, ch ≠ 0) s → holds_string (s ++ [0]) s.
Proof. intros Hs. split; [exact Hs|]. exists []. reflexivity. Qed.

(** A line of [n] letters A. *)
Lemma letters_holds (n : nat) : holds_string (replicate n 65 ++ [0]) (replicate n 65).
Proof. apply holds_string_terminated, Forall_replicate. lia. Qed.

Lemma letters_lines (n : nat) : text_lines (replicate n 65) = [replicate n 65].
Proof.
  apply text_lines_single. intros Hin. apply elem_of_replicate in Hin. lia.
Qed.

Lemma letters_line_width (n : nat) :
  line_width (replicate n 65) = ASCII_FONT_WIDTH * Z.of_nat n.
Proof. unfold line_width. rewrite length_replicate. reflexivity. Qed.

Lemma ascii_text_width_letters (n : nat) :
  Z.of_nat n = 268435456 →
  max_line_width (replicate n 65) = 2147483648 ∧
  ascii_text_width (replicate n 65 ++ [0]) = Some 0.
Proof.
  intros Hn. split.
  - unfold max_line_width. rewrite letters_lines. cbn [fmap list_fmap foldr].
    rewrite letters_line_width, Hn. reflexivity.
  - rewrite (ascii_text_width_int _ _ (letters_holds n)).
    unfold int_max_line_width. rewrite letters_lines. cbn [fmap list_fmap foldr].
    rewrite letters_line_width, Hn. reflexivity.
Qed.

(** C5. For a terminated string none of whose lines has [2^28] characters
    or more, so that each line width is a value of [int],
    [ascii_text_width] returns the greatest width of a line of the string,
    a line being what lies between two newlines and its width
    [ASCII_FONT_WIDTH] = 8 for each of its characters: no line is wider
    than the result and some line is as wide.  For every terminated string
    it returns the greatest of 0 and the line widths as the [int] values
    they have become.  The empty string has width 0, ["AB"] has width
    [2 * 8] and ["A\nBB"] has width [2 * 8]. *)
Theorem ascii_text_width_max_line :
  (∀ text s, holds_string text s →
     ascii_text_width text = Some (int_max_line_width s)) ∧
  (∀ text s, holds_string text s → lines_fit_int s →
     ascii_text_width text = Some (max_line_width s) ∧
     (∀ l, l ∈ text_lines s → ASCII_FONT_WIDTH * Z.of_nat (length l) ≤ max_line_width s) ∧
     (∃ l, l ∈ text_lines s ∧ ASCII_FONT_WIDTH * Z.of_nat (length l) = max_line_width s)) ∧
  ascii_text_width [0] = Some 0 ∧
  ascii_text_width [65; 66; 0] = Some (2 * ASCII_FONT_WIDTH) ∧
  ascii_text_width [65; 10; 66; 66; 0] = Some (2 * ASCII_FONT_WIDTH).
Proof.
  split; [exact ascii_text_width_int|].
  split; [|repeat split].
  intros text s Htext Hfit.
  split; [|split].
  - rewrite (ascii_text_width_int text s Htext). f_equal.
    apply int_max_line_width_fits, Hfit.
  - intros l. apply max_line_width_upper.
  - apply max_line_width_reached.
Qed.

Lemma ascii_text_width_max_line_witness :
  ascii_text_width [66; 66; 10; 65; 0; 7] = Some (max_line_width [66; 66; 10; 65]).
Proof.
  apply (proj1 (proj2 ascii_text_width_max_line) [66; 66; 10; 65; 0; 7] [66; 66; 10; 65]).
  - split.
    + repeat constructor; lia.
    + exists [7]. reflexivity.
  - repeat constructor; vm_compute; discriminate.
Defined.

(** A string of [2^28] letters A has one line, [2^31] wide, and
    [ascii_text_width] returns 0 for it: the running width has left [int]
    at the last letter. *)
Lemma ascii_text_width_fails_long_line :
  holds_string (replicate (Z.to_nat 268435456) 65 ++ [0])
               (replicate (Z.to_nat 268435456) 65) ∧
  max_line_width (replicate (Z.to_nat 268435456) 65) = 2147483648 ∧
  ascii_text_width (replicate (Z.to_nat 268435456) 65 ++ [0]) = Some 0.
Proof.
  split; [apply letters_holds|].
  apply ascii_text_width_letters. apply Z2Nat.id. lia.
Qed.

Lemma newlines_holds (n : nat) : holds_string (replicate n 10 ++ [0]) (replicate n 10).
Proof. apply holds_string_terminated, Forall_replicate. lia. Qed.

Lemma newlines_count (n : nat) : newline_count (replicate n 10) = Z.of_nat n.
Proof.
  unfold newline_count. rewrite filter_all, length_replicate; [reflexivity|].
  apply Forall_replicate. reflexivity.
Qed.

Lemma ascii_text_height_int (text s : list Z) :
  holds_string text s →
  ascii_text_height text
  = Some (int_wrap (ASCII_FONT_HEIGHT + ASCII_FONT_HEIGHT * newline_count s)).
Proof.
  intros (Hs & rest & ->). apply ascii_text_height_loop_spec; [exact Hs|].
  unfold fits_int, INT_MIN, INT_MAX, ASCII_FONT_HEIGHT. lia.
Qed.

Lemma newline_count_nonneg (s : list Z) : 0 ≤ newline_count s.
Proof. unfold newline_count. lia. Qed.

Lemma ascii_text_height_exact (text s : list Z) :
  holds_string text s → height_fits_int s →
  ascii_text_height text = Some (ASCII_FONT_HEIGHT + ASCII_FONT_HEIGHT * newline_count s).
Proof.
  intros Htext Hfit. rewrite (ascii_text_height_int text s Htext). f_equal.
  apply int_wrap_fits. pose proof (newline_count_nonneg s).
  unfold height_fits_int, fits_int, INT_MIN, INT_MAX, ASCII_FONT_HEIGHT in *. lia.
Qed.

Lemma ascii_text_height_newline_run (n : nat) :
  Z.of_nat n = 268435455 →
  ASCII_FONT_HEIGHT + ASCII_FONT_HEIGHT * newline_count (replicate n 10) = 2147483648 ∧
  ascii_text_height (replicate n 10 ++ [0]) = Some (-2147483648).
Proof.
  intros Hn. rewrite (ascii_text_height_int _ _ (newlines_holds n)).
  rewrite newlines_count, Hn. split; reflexivity.
Qed.

(** C6. For a terminated string of fewer than [2^28 - 1] newlines, so that
    the height is a value of [int], [ascii_text_height] returns
    [ASCII_FONT_HEIGHT] plus [ASCII_FONT_HEIGHT] for each newline of the
    string, whether or not anything follows the last newline.  For every
    terminated string it returns that height as the [int] it has become.
    The empty string has height 8, ["A\nB\nC"] has height [3 * 8], and so
    has ["A\nB\n"]. *)
Theorem ascii_text_height_newlines :
  (∀ text s, holds_string text s →
     ascii_text_height text
     = Some (int_wrap (ASCII_FONT_HEIGHT + ASCII_FONT_HEIGHT * newline_count s))) ∧
  (∀ text s, holds_string text s → height_fits_int s →
     ascii_text_height text
     = Some (ASCII_FONT_HEIGHT + ASCII_FONT_HEIGHT * newline_count s)) ∧
  ascii_text_height [0] = Some ASCII_FONT_HEIGHT ∧
  ascii_text_height [65; 10; 66; 10; 67; 0] = Some (3 * ASCII_FONT_HEIGHT) ∧
  ascii_text_height [65; 10; 66; 10; 0] = Some (3 * ASCII_FONT_HEIGHT).
Proof.
  split; [exact ascii_text_height_int|].
  split; [exact ascii_text_height_exact|].
  repeat split.
Qed.

Lemma ascii_text_height_newlines_witness :
  ascii_text_height [10; 65; 10; 0; 7]
  = Some (ASCII_FONT_HEIGHT + ASCII_FONT_HEIGHT * newline_count [10; 65; 10]).
Proof.
  apply (proj1 (proj2 ascii_text_height_newlines) [10; 65; 10; 0; 7] [10; 65; 10]).
  - split.
    + repeat constructor; lia.
    + exists [7]. reflexivity.
  - vm_compute. discriminate.
Defined.

(** A string of [2^28 - 1] newlines should be [2^31] high, and
    [ascii_text_height] returns [INT_MIN] for it: the height has left
    [int] at the last newline. *)
Lemma ascii_text_height_fails_many_newlines :
  holds_string (replicate (Z.to_nat 268435455) 10 ++ [0])
               (replicate (Z.to_nat 268435455) 10) ∧
  ASCII_FONT_HEIGHT
    + ASCII_FONT_HEIGHT * newline_count (replicate (Z.to_nat 268435455) 10)
  = 2147483648 ∧
  ascii_text_height (replicate (Z.to_nat 268435455) 10 ++ [0]) = Some (-2147483648).
Proof.
  split; [apply newlines_holds|].
  apply ascii_text_height_newline_run. apply Z2Nat.id. lia.
Qed.

(** ** Drawing text *)

Lemma last_fmap {A B : Type} (f : A → B) (l : list A) (d : A) :
  List.last (f <$> l) (f d) = f (List.last l d).
Proof.
  revert d. induction l as [|a l IH]; intros d; [reflexivity|].
  destruct l as [|b l]; [reflexivity|]. exact (IH d).
Qed.

Lemma last_cons_default {A : Type} (a d : A) (l : list A) :
  List.last (a :: l) d = List.last l a.
Proof.
  revert a d. induction l as [|b l IH]; intros a d; [reflexivity|].
  change (List.last (a :: b :: l) d) with (List.last (b :: l) d).
  rewrite (IH b d). symmetry. apply IH.
Qed.

Lemma int_wrap_add_congr (a a' b : Z) :
  int_wrap a = int_wrap a' → int_wrap (a + b) = int_wrap (a' + b).
Proof. intros Ha. rewrite <- (int_wrap_add_l a), <- (int_wrap_add_l a'), Ha. reflexivity. Qed.

Lemma last_default_congr (l : list Z) (d d' : Z) :
  int_wrap d = int_wrap d' → int_wrap (List.last l d) = int_wrap (List.last l d').
Proof.
  intros Hd. destruct l as [|a l]; [exact Hd|].
  rewrite !last_cons_default. reflexivity.
Qed.

(** *** The places of the characters *)

Lemma place_line_nil (x y : Z) : place_line x y [] = [].
Proof. reflexivity. Qed.

Lemma place_line_cons (x y ch : Z) (l : list Z) :
  place_line x y (ch :: l)
  = (ch, int_wrap x, int_wrap y) :: place_line (x + ASCII_FONT_WIDTH) y l.
Proof.
  unfold place_line. rewrite imap_cons. f_equal.
  - do 3 f_equal. unfold ASCII_FONT_WIDTH. lia.
  - apply imap_ext. intros j ch' _. cbn. do 3 f_equal. unfold ASCII_FONT_WIDTH. lia.
Qed.

(** Only the [int] values of the start of a line count. *)
Lemma place_line_congr (x x' y y' : Z) (l : list Z) :
  int_wrap x = int_wrap x' → int_wrap y = int_wrap y' →
  place_line x y l = place_line x' y' l.
Proof.
  intros Hx Hy. unfold place_line. apply imap_ext. intros j ch _. cbn.
  rewrite Hy, (int_wrap_add_congr x x' _ Hx). reflexivity.
Qed.

Lemma place_lines_cons (x y : Z) (l : list Z) (ls : list (list Z)) :
  place_lines x y (l :: ls)
  = place_line x y l ++ place_lines x (y + ASCII_FONT_HEIGHT) ls.
Proof.
  unfold place_lines. rewrite imap_cons. cbn [concat]. f_equal.
  - f_equal. unfold ASCII_FONT_HEIGHT. lia.
  - f_equal. apply imap_ext. intros i l' _. cbn. f_equal. unfold ASCII_FONT_HEIGHT. lia.
Qed.

Lemma place_lines_congr (x x' y y' : Z) (ls : list (list Z)) :
  int_wrap x = int_wrap x' → int_wrap y = int_wrap y' →
  place_lines x y ls = place_lines x' y' ls.
Proof.
  intros Hx Hy. unfold place_lines. f_equal. apply imap_ext. intros i l _. cbn.
  apply place_line_congr; [exact Hx|]. apply int_wrap_add_congr, Hy.
Qed.

Section DrawTextLayout.
Context {World Color UserData : Type}.
Context (pixel_fn : ascii_pixel_fn World Color UserData).
Context (color : Color) (user_data : UserData).

Lemma draw_placed_app (p1 p2 : list (Z * Z * Z)) (w : World) :
  draw_placed pixel_fn color user_data (p1 ++ p2) w
  = draw_placed pixel_fn color user_data p2 (draw_placed pixel_fn color user_data p1 w).
Proof. apply fold_left_app. Qed.

Lemma draw_placed_cons (ch cx cy : Z) (places : list (Z * Z * Z)) (w : World) :
  draw_placed pixel_fn color user_data ((ch, cx, cy) :: places) w
  = draw_placed pixel_fn color user_data places
      (ascii_draw_char ch cx cy pixel_fn color user_data w).
Proof. reflexivity. Qed.

(** The loop, with the cursor at [(x, current_y)] and the rest of the
    string still to read: the rest of the current line is drawn from the
    cursor on, and the lines after it from [start_x] on, each 8 lower.
    The cursor it ends with is, as an [int], the exact end of the last
    line. *)
Lemma ascii_draw_text_loop_layout (s rest : list Z) :
  Forall (λ ch, ch ≠ 0) s →
  ∀ (l : list Z) (ls : list (list Z)) (x current_y start_x : Z) (w : World),
    text_lines s = l :: ls →
    ∃ x_end,
      ascii_draw_text_loop (s ++ 0 :: rest) x current_y start_x pixel_fn color user_data w
      = Some (draw_placed pixel_fn color user_data
                (place_line x current_y l
                 ++ place_lines start_x (current_y + ASCII_FONT_HEIGHT) ls) w,
              x_end) ∧
      int_wrap x_end
      = int_wrap (List.last ((λ l', start_x + line_width l') <$> ls) (x + line_width l)).
Proof.
  induction 1 as [|ch s Hch Hs IH]; intros l ls x current_y start_x w Hlines.
  - cbn in Hlines. injection Hlines as <- <-. exists x. split; [reflexivity|].
    cbn. f_equal. unfold line_width. cbn. lia.
  - cbn [app ascii_draw_text_loop].
    destruct (Z.eqb_spec ch 0); [contradiction|].
    destruct (text_lines_nonempty s) as (l' & ls' & Hs').
    destruct (Z.eqb_spec ch 10) as [->|Hnl].
    + rewrite text_lines_newline, Hs' in Hlines. injection Hlines as <- <-.
      destruct (IH l' ls' start_x (int_add current_y ASCII_FONT_HEIGHT) start_x w Hs')
        as (x_end & -> & Hend).
      exists x_end. split.
      * rewrite place_line_nil, app_nil_l, place_lines_cons.
        rewrite (place_line_congr start_x start_x
                   (int_add current_y ASCII_FONT_HEIGHT) (current_y + ASCII_FONT_HEIGHT))
          by (trivial; apply int_wrap_idem).
        rewrite (place_lines_congr start_x start_x
                   (int_add current_y ASCII_FONT_HEIGHT + ASCII_FONT_HEIGHT)
                   (current_y + ASCII_FONT_HEIGHT + ASCII_FONT_HEIGHT))
          by (trivial; apply int_wrap_add_congr, int_wrap_idem).
        reflexivity.
      * rewrite Hend, fmap_cons, last_cons_default. reflexivity.
    + rewrite (text_lines_char ch s l' ls' Hnl Hs') in Hlines. injection Hlines as <- <-.
      destruct (IH l' ls' (int_add x ASCII_FONT_WIDTH) current_y start_x
                  (ascii_draw_char ch x current_y pixel_fn color user_data w) Hs')
        as (x_end & -> & Hend).
      exists x_end. split.
      * rewrite place_line_cons. cbn [app]. rewrite draw_placed_cons, ascii_draw_char_wrap.
        rewrite (place_line_congr (int_add x ASCII_FONT_WIDTH) (x + ASCII_FONT_WIDTH)
                   current_y current_y)
          by (trivial; apply int_wrap_idem).
        reflexivity.
      * rewrite Hend. apply last_default_congr.
        unfold int_add. rewrite int_wrap_add_l, line_width_cons. f_equal. lia.
Qed.

(** On a terminated string: the characters are drawn where the layout
    puts them, and the value returned is the width of the last line as an
    [int]. *)
Lemma ascii_draw_text_layout (text s : list Z) (x y : Z) (w : World) :
  holds_string text s →
  ascii_draw_text text x y pixel_fn color user_data w
  = Some (draw_placed pixel_fn color user_data (text_layout s x y) w,
          int_wrap (line_width (last_line s))).
Proof.
  intros (Hs & rest & ->).
  destruct (text_lines_nonempty s) as (l & ls & Hlines).
  unfold ascii_draw_text. cbv zeta.
  destruct (ascii_draw_text_loop_layout s rest Hs l ls x y x w Hlines) as (x_end & -> & Hend).
  unfold text_layout. rewrite Hlines, place_lines_cons. do 2 f_equal.
  unfold int_sub. rewrite <- int_wrap_sub_l, Hend, int_wrap_sub_l. f_equal.
  unfold last_line. rewrite Hlines, last_cons_default.
  rewrite (last_fmap (λ l', x + line_width l')). lia.
Qed.
End DrawTextLayout.

Lemma ascii_draw_text_letters (n : nat) :
  Z.of_nat n = 268435456 →
  ASCII_FONT_WIDTH * Z.of_nat (length (last_line (replicate n 65))) = 2147483648 ∧
  snd <$> ascii_draw_text (replicate n 65 ++ [0]) 0 0 record_pixel tt tt []
  = Some (-2147483648).
Proof.
  intros Hn.
  rewrite (ascii_draw_text_layout record_pixel tt tt _ _ 0 0 [] (letters_holds n)).
  unfold last_line. rewrite letters_lines. cbn [List.last fmap option_fmap option_map snd].
  fold (line_width (replicate n 65)). rewrite letters_line_width, Hn.
  split; reflexivity.
Qed.

(** C4. For a terminated string, [ascii_draw_text] returns the width of
    the last line of the string alone, as the [int] it has become:
    [ASCII_FONT_WIDTH] = 8 for each character after the last newline when
    the last line has fewer than [2^28] characters and that width is a
    value of [int].  Then, for a string without newline, that is 8 times
    its length.  For a string that ends with a newline it is 0. *)
Theorem ascii_draw_text_last_line_width {World Color UserData : Type}
    (pixel_fn : ascii_pixel_fn World Color UserData) (text s : list Z) (x y : Z)
    (color : Color) (user_data : UserData) (w : World) :
  holds_string text s →
  ∃ w',
    ascii_draw_text text x y pixel_fn color user_data w
    = Some (w', int_wrap (ASCII_FONT_WIDTH * Z.of_nat (length (last_line s)))) ∧
    (∀ s0, s = s0 ++ [10] →
     ascii_draw_text text x y pixel_fn color user_data w = Some (w', 0)) ∧
    (ASCII_FONT_WIDTH * Z.of_nat (length (last_line s)) ≤ INT_MAX →
     ascii_draw_text text x y pixel_fn color user_data w
     = Some (w', ASCII_FONT_WIDTH * Z.of_nat (length (last_line s))) ∧
     (10 ∉ s →
      ascii_draw_text text x y pixel_fn color user_data w
      = Some (w', ASCII_FONT_WIDTH * Z.of_nat (length s)))).
Proof.
  intros Htext.
  exists (draw_placed pixel_fn color user_data (text_layout s x y) w).
  rewrite (ascii_draw_text_layout pixel_fn color user_data text s x y w Htext).
  fold (line_width (last_line s)).
  split; [reflexivity|]. split.
  - intros s0 ->. rewrite last_line_ends_newline. reflexivity.
  - intros Hfit.
    rewrite int_wrap_fits
      by (pose proof (line_width_nonneg (last_line s)); unfold fits_int, INT_MIN; lia).
    split; [reflexivity|].
    intros Hsingle. rewrite last_line_single by exact Hsingle. reflexivity.
Qed.

Lemma ascii_draw_text_last_line_width_witness :
  ∃ calls,
    ascii_draw_text [48; 48; 10; 48; 0] 3 4 record_pixel tt tt []
    = Some (calls, ASCII_FONT_WIDTH * Z.of_nat (length (last_line [48; 48; 10; 48]))).
Proof.
  destruct (ascii_draw_text_last_line_width record_pixel
              [48; 48; 10; 48; 0] [48; 48; 10; 48] 3 4 tt tt [])
    as (calls & _ & _ & Hcalls).
  - split.
    + repeat constructor; lia.
    + exists []. reflexivity.
  - exists calls. apply Hcalls. vm_compute. discriminate.
Defined.

(** A string of [2^28] letters A, without newline, should return
    [2^28 * 8 = 2^31], and [ascii_draw_text] returns [INT_MIN] for it. *)
Lemma ascii_draw_text_fails_long_line :
  holds_string (replicate (Z.to_nat 268435456) 65 ++ [0])
               (replicate (Z.to_nat 268435456) 65) ∧
  ASCII_FONT_WIDTH * Z.of_nat (length (last_line (replicate (Z.to_nat 268435456) 65)))
  = 2147483648 ∧
  snd <$> ascii_draw_text (replicate (Z.to_nat 268435456) 65 ++ [0]) 0 0
            record_pixel tt tt []
  = Some (-2147483648).
Proof.
  split; [apply letters_holds|].
  apply ascii_draw_text_letters. apply Z2Nat.id. lia.
Qed.

(** The returned width is that of the last line, where [ascii_text_width]
    gives that of the widest: 8 and 16 for ["AB\nC"]. *)
Example ascii_draw_text_not_widest :
  snd <$> ascii_draw_text [65; 66; 10; 67; 0] 0 0 record_pixel tt tt [] = Some 8 ∧
  ascii_text_width [65; 66; 10; 67; 0] = Some 16.
Proof. split; reflexivity. Qed.

(** A string without terminator has no result. *)
Example ascii_text_width_unterminated : ascii_text_width [65; 66] = None.
Proof. reflexivity. Qed.

(** * Further properties *)

(** ** The layout of a text *)

Lemma elem_of_concat {A : Type} (x : A) (ls : list (list A)) :
  x ∈ concat ls ↔ ∃ l, l ∈ ls ∧ x ∈ l.
Proof.
  rewrite list_elem_of_In, in_concat. split; intros (l & H1 & H2); exists l;
    rewrite ?list_elem_of_In in *; tauto.
Qed.

Lemma elem_of_place_line (x y : Z) (l : list Z) (p : Z * Z * Z) :
  p ∈ place_line x y l ↔
  ∃ (j : nat) (ch : Z),
    l !! j = Some ch ∧ p = (ch, int_wrap (x + ASCII_FONT_WIDTH * Z.of_nat j), int_wrap y).
Proof.
  unfold place_line. rewrite elem_of_lookup_imap.
  split; intros (j & ch & H1 & H2); exists j, ch; tauto.
Qed.

Lemma elem_of_place_lines (x y : Z) (lines : list (list Z)) (p : Z * Z * Z) :
  p ∈ place_lines x y lines ↔
  ∃ (i j : nat) (l : list Z) (ch : Z),
    lines !! i = Some l ∧ l !! j = Some ch ∧
    p = (ch, int_wrap (x + ASCII_FONT_WIDTH * Z.of_nat j),
             int_wrap (y + ASCII_FONT_HEIGHT * Z.of_nat i)).
Proof.
  unfold place_lines. rewrite elem_of_concat. split.
  - intros (placed & Hplaced & Hp). apply elem_of_lookup_imap in Hplaced.
    destruct Hplaced as (i & l & -> & Hl). apply elem_of_place_line in Hp.
    destruct Hp as (j & ch & Hch & ->). exists i, j, l, ch. tauto.
  - intros (i & j & l & ch & Hl & Hch & ->).
    exists (place_line x (y + ASCII_FONT_HEIGHT * Z.of_nat i) l). split.
    + apply elem_of_lookup_imap. exists i, l. tauto.
    + apply elem_of_place_line. exists j, ch. tauto.
Qed.

(** X1. On a terminated string, [ascii_draw_text] draws the characters of
    the string other than newlines, in the order of the string, character
    [j] of line [i] with [ascii_draw_char] at [(x + 8 * j, y + 8 * i)] as
    values of [int], and returns the width of the last line as a value of
    [int]. *)
Theorem ascii_draw_text_places_characters {World Color UserData : Type}
    (pixel_fn : ascii_pixel_fn World Color UserData) (text s : list Z) (x y : Z)
    (color : Color) (user_data : UserData) (w : World) :
  holds_string text s →
  ascii_draw_text text x y pixel_fn color user_data w
  = Some (draw_placed pixel_fn color user_data (text_layout s x y) w,
          int_wrap (ASCII_FONT_WIDTH * Z.of_nat (length (last_line s)))) ∧
  (∀ ch cx cy,
     (ch, cx, cy) ∈ text_layout s x y ↔
     ∃ (i j : nat) (l : list Z),
       text_lines s !! i = Some l ∧ l !! j = Some ch ∧
       cx = int_wrap (x + ASCII_FONT_WIDTH * Z.of_nat j) ∧
       cy = int_wrap (y + ASCII_FONT_HEIGHT * Z.of_nat i)).
Proof.
  intros Htext. split; [apply ascii_draw_text_layout, Htext|].
  intros ch cx cy. unfold text_layout. rewrite elem_of_place_lines. split.
  - intros (i & j & l & ch' & Hl & Hch & Heq). injection Heq as -> -> ->.
    exists i, j, l. tauto.
  - intros (i & j & l & Hl & Hch & -> & ->). exists i, j, l, ch. tauto.
Qed.

Lemma ascii_draw_text_places_characters_witness :
  ascii_draw_text [65; 48; 10; 48; 0] 3 4 record_pixel tt tt []
  = Some (draw_placed record_pixel tt tt (text_layout [65; 48; 10; 48] 3 4) [],
          int_wrap (ASCII_FONT_WIDTH * Z.of_nat (length (last_line [65; 48; 10; 48])))).
Proof.
  apply (ascii_draw_text_places_characters record_pixel
           [65; 48; 10; 48; 0] [65; 48; 10; 48] 3 4 tt tt []).
  split.
  - repeat constructor; lia.
  - exists []. reflexivity.
Defined.

Example text_layout_two_lines :
  text_layout [65; 48; 10; 48] 3 4 = [(65, 3, 4); (48, 11, 4); (48, 3, 12)].
Proof. reflexivity. Qed.

(** ** Text metrics and the drawn area *)

Lemma ascii_text_width_holds (text s : list Z) :
  holds_string text s → lines_fit_int s →
  ascii_text_width text = Some (max_line_width s).
Proof.
  intros Htext Hfit. rewrite (ascii_text_width_int text s Htext). f_equal.
  apply int_max_line_width_fits, Hfit.
Qed.

(** A string has one line more than it has newlines. *)
Lemma text_lines_length (s : list Z) :
  Z.of_nat (length (text_lines s)) = newline_count s + 1.
Proof.
  induction s as [|ch s IH]; [reflexivity|].
  rewrite newline_count_cons.
  destruct (text_lines_nonempty s) as (l & ls & Hs).
  destruct (Z.eqb_spec ch 10) as [->|Hch].
  - rewrite text_lines_newline. cbn [length]. lia.
  - rewrite (text_lines_char ch s l ls Hch Hs). rewrite Hs in IH.
    cbn [length] in IH |- *. lia.
Qed.

Lemma last_line_elem_of (s : list Z) : last_line s ∈ text_lines s.
Proof.
  unfold last_line. destruct (text_lines_nonempty s) as (l & ls & ->).
  rewrite last_cons_default. revert l.
  induction ls as [|l' ls IH]; intros l; [left|].
  rewrite last_cons_default. right. apply IH.
Qed.

Lemma text_lines_join_newline (s1 s2 : list Z) :
  text_lines (s1 ++ 10 :: s2) = text_lines s1 ++ text_lines s2.
Proof.
  induction s1 as [|ch s1 IH]; [reflexivity|].
  destruct (text_lines_nonempty s1) as (l & ls & Hs1).
  destruct (Z.eq_dec ch 10) as [->|Hch].
  - cbn [app]. rewrite !text_lines_newline, IH. reflexivity.
  - cbn [app]. rewrite (text_lines_char ch s1 l ls Hch Hs1).
    rewrite (text_lines_char ch (s1 ++ 10 :: s2) l (ls ++ text_lines s2) Hch);
      [reflexivity|].
    rewrite IH, Hs1. reflexivity.
Qed.

Lemma foldr_max_app (l1 l2 : list Z) :
  foldr Z.max 0 (l1 ++ l2) = Z.max (foldr Z.max 0 l1) (foldr Z.max 0 l2).
Proof.
  induction l1 as [|a l1 IH]; cbn [app foldr].
  - pose proof (foldr_max_nonneg l2). lia.
  - rewrite IH. lia.
Qed.

Lemma int_max_line_width_join_newline (s1 s2 : list Z) :
  int_max_line_width (s1 ++ 10 :: s2)
  = Z.max (int_max_line_width s1) (int_max_line_width s2).
Proof.
  unfold int_max_line_width. rewrite text_lines_join_newline, fmap_app.
  apply foldr_max_app.
Qed.

Lemma newline_count_join_newline (s1 s2 : list Z) :
  newline_count (s1 ++ 10 :: s2) = newline_count s1 + 1 + newline_count s2.
Proof.
  pose proof (text_lines_length (s1 ++ 10 :: s2)) as H12.
  rewrite text_lines_join_newline, length_app in H12.
  pose proof (text_lines_length s1). pose proof (text_lines_length s2). lia.
Qed.

Lemma last_line_fits (s : list Z) :
  lines_fit_int s → fits_int (line_width (last_line s)).
Proof.
  unfold lines_fit_int. rewrite Forall_forall. intros Hfit.
  pose proof (Hfit _ (last_line_elem_of s)). pose proof (line_width_nonneg (last_line s)).
  unfold fits_int, INT_MIN. lia.
Qed.

(** X2. On a terminated string none of whose lines has [2^28] characters
    or more, the width [ascii_draw_text] returns is at least 0 and at most
    the width [ascii_text_width] computes for the string, and the two are
    equal when the string has no newline. *)
Theorem ascii_draw_text_width_le_text_width {World Color UserData : Type}
    (pixel_fn : ascii_pixel_fn World Color UserData) (text s : list Z) (x y : Z)
    (color : Color) (user_data : UserData) (w : World) :
  holds_string text s → lines_fit_int s →
  ∃ w' drawn_width width,
    ascii_draw_text text x y pixel_fn color user_data w = Some (w', drawn_width) ∧
    ascii_text_width text = Some width ∧
    0 ≤ drawn_width ≤ width ∧
    (10 ∉ s → drawn_width = width).
Proof.
  intros Htext Hfit.
  exists (draw_placed pixel_fn color user_data (text_layout s x y) w),
         (line_width (last_line s)), (max_line_width s).
  split.
  { rewrite (ascii_draw_text_layout _ _ _ _ _ _ _ _ Htext).
    rewrite (int_wrap_fits _ (last_line_fits s Hfit)). reflexivity. }
  split; [apply ascii_text_width_holds; assumption|].
  split.
  - split; [apply line_width_nonneg|]. apply max_line_width_upper, last_line_elem_of.
  - intros Hsingle. unfold max_line_width, last_line.
    rewrite text_lines_single by exact Hsingle. cbn.
    pose proof (line_width_nonneg s). lia.
Qed.

Lemma ascii_draw_text_width_le_text_width_witness :
  ∃ calls drawn_width width,
    ascii_draw_text [65; 66; 10; 67; 0] 0 0 record_pixel tt tt [] = Some (calls, drawn_width) ∧
    ascii_text_width [65; 66; 10; 67; 0] = Some width ∧
    0 ≤ drawn_width ≤ width ∧
    (10 ∉ [65; 66; 10; 67] → drawn_width = width).
Proof.
  apply (ascii_draw_text_width_le_text_width record_pixel
           [65; 66; 10; 67; 0] [65; 66; 10; 67] 0 0 tt tt []).
  - split.
    + repeat constructor; lia.
    + exists []. reflexivity.
  - repeat constructor; vm_compute; discriminate.
Defined.

(** X3. The metrics of two strings joined by a newline: the width is the
    greater of the two widths, and the height is the [int] sum of the two
    heights, which is their sum when that is a value of [int]. *)
Theorem text_metrics_join_newline (s1 s2 : list Z) :
  Forall (λ ch, ch ≠ 0) s1 → Forall (λ ch, ch ≠ 0) s2 →
  ∃ w1 w2 h1 h2,
    ascii_text_width (s1 ++ [0]) = Some w1 ∧
    ascii_text_width (s2 ++ [0]) = Some w2 ∧
    ascii_text_height (s1 ++ [0]) = Some h1 ∧
    ascii_text_height (s2 ++ [0]) = Some h2 ∧
    ascii_text_width ((s1 ++ 10 :: s2) ++ [0]) = Some (Z.max w1 w2) ∧
    ascii_text_height ((s1 ++ 10 :: s2) ++ [0]) = Some (int_add h1 h2) ∧
    (fits_int (h1 + h2) →
     ascii_text_height ((s1 ++ 10 :: s2) ++ [0]) = Some (h1 + h2)).
Proof.
  intros Hs1 Hs2.
  assert (Forall (λ ch, ch ≠ 0) (s1 ++ 10 :: s2)) as Hs12.
  { apply Forall_app. split; [exact Hs1|]. constructor; [lia|exact Hs2]. }
  exists (int_max_line_width s1), (int_max_line_width s2),
         (int_wrap (ASCII_FONT_HEIGHT + ASCII_FONT_HEIGHT * newline_count s1)),
         (int_wrap (ASCII_FONT_HEIGHT + ASCII_FONT_HEIGHT * newline_count s2)).
  rewrite !(ascii_text_width_int _ _ (holds_string_terminated _ Hs1)).
  rewrite !(ascii_text_width_int _ _ (holds_string_terminated _ Hs2)).
  rewrite !(ascii_text_width_int _ _ (holds_string_terminated _ Hs12)).
  rewrite !(ascii_text_height_int _ _ (holds_string_terminated _ Hs1)).
  rewrite !(ascii_text_height_int _ _ (holds_string_terminated _ Hs2)).
  rewrite !(ascii_text_height_int _ _ (holds_string_terminated _ Hs12)).
  rewrite int_max_line_width_join_newline, newline_count_join_newline.
  assert (int_wrap (ASCII_FONT_HEIGHT
                    + ASCII_FONT_HEIGHT * (newline_count s1 + 1 + newline_count s2))
          = int_add (int_wrap (ASCII_FONT_HEIGHT + ASCII_FONT_HEIGHT * newline_count s1))
                    (int_wrap (ASCII_FONT_HEIGHT + ASCII_FONT_HEIGHT * newline_count s2)))
    as Hsum.
  { unfold int_add. rewrite int_wrap_add_l, int_wrap_add_r. f_equal.
    unfold ASCII_FONT_HEIGHT. lia. }
  rewrite Hsum. repeat split.
  intros Hfits. f_equal. apply int_add_fits, Hfits.
Qed.

Lemma text_metrics_join_newline_witness :
  ∃ w1 w2 h1 h2,
    ascii_text_width ([65; 66] ++ [0]) = Some w1 ∧
    ascii_text_width ([67; 10; 68] ++ [0]) = Some w2 ∧
    ascii_text_height ([65; 66] ++ [0]) = Some h1 ∧
    ascii_text_height ([67; 10; 68] ++ [0]) = Some h2 ∧
    ascii_text_width (([65; 66] ++ 10 :: [67; 10; 68]) ++ [0]) = Some (Z.max w1 w2) ∧
    ascii_text_height (([65; 66] ++ 10 :: [67; 10; 68]) ++ [0]) = Some (int_add h1 h2) ∧
    (fits_int (h1 + h2) →
     ascii_text_height (([65; 66] ++ 10 :: [67; 10; 68]) ++ [0]) = Some (h1 + h2)).
Proof.
  apply (text_metrics_join_newline [65; 66] [67; 10; 68]); repeat constructor; lia.
Defined.

Lemma draw_placed_record {Color UserData : Type} (color : Color) (user_data : UserData)
    (places : list (Z * Z * Z)) (calls : list (pixel_call Color UserData)) :
  draw_placed record_pixel color user_data places calls
  = calls ++ concat ((λ p, (λ rc, (int_add p.1.2 rc.2, int_add p.2 rc.1, color, user_data))
                             <$> set_pixels (ascii_get_char_bitmap p.1.1)) <$> places).
Proof.
  revert calls. induction places as [|p places IH]; intros calls.
  - cbn. symmetry. apply app_nil_r.
  - unfold draw_placed in IH |- *. cbn [fold_left]. rewrite IH, ascii_draw_char_record.
    rewrite fmap_cons. cbn [concat]. rewrite app_assoc. reflexivity.
Qed.

(** X4. When the rectangle of a terminated string drawn at [(x, y)] has
    [int] coordinates throughout, the calls [ascii_draw_text] makes all lie
    in the rectangle that [ascii_text_width] and [ascii_text_height]
    measure for the string, placed at [(x, y)]. *)
Theorem ascii_draw_text_within_metrics {Color UserData : Type} (text s : list Z)
    (x y : Z) (color : Color) (user_data : UserData) :
  holds_string text s → text_area_fits_int s x y →
  ∃ calls drawn_width width height,
    ascii_draw_text text x y record_pixel color user_data [] = Some (calls, drawn_width) ∧
    ascii_text_width text = Some width ∧
    ascii_text_height text = Some height ∧
    Forall (λ k : pixel_call Color UserData,
              x ≤ k.1.1.1 < x + width ∧ y ≤ k.1.1.2 < y + height) calls.
Proof.
  intros Htext (Hx & Hy & Hlines & Hheight & Hright & Hbottom).
  exists (draw_placed record_pixel color user_data (text_layout s x y) []),
         (int_wrap (line_width (last_line s))), (max_line_width s),
         (ASCII_FONT_HEIGHT + ASCII_FONT_HEIGHT * newline_count s).
  split; [apply ascii_draw_text_layout, Htext|].
  split; [apply ascii_text_width_holds; assumption|].
  split; [apply ascii_text_height_exact; assumption|].
  rewrite draw_placed_record, app_nil_l. apply Forall_forall. intros k Hk.
  apply elem_of_concat in Hk. destruct Hk as (ks & Hks & Hk).
  apply list_elem_of_fmap in Hks. destruct Hks as (p & -> & Hp).
  apply list_elem_of_fmap in Hk. destruct Hk as ([row col] & -> & Hrc).
  apply elem_of_set_pixels in Hrc. destruct Hrc as (Hrow & Hcol & _).
  apply elem_of_place_lines in Hp.
  destruct Hp as (i & j & l & ch & Hl & Hch & ->). cbn.
  apply lookup_lt_Some in Hch.
  assert (line_width l ≤ max_line_width s) as Hwide.
  { apply max_line_width_upper, list_elem_of_lookup. exists i. exact Hl. }
  apply lookup_lt_Some in Hl. pose proof (text_lines_length s) as Hlen.
  unfold line_width in Hwide.
  unfold fits_int, INT_MIN, INT_MAX, ASCII_FONT_WIDTH, ASCII_FONT_HEIGHT in *.
  unfold int_add. rewrite !int_wrap_add_l.
  rewrite !int_wrap_fits by (unfold fits_int, INT_MIN, INT_MAX; lia). lia.
Qed.

Lemma ascii_draw_text_within_metrics_witness :
  ∃ calls drawn_width width height,
    ascii_draw_text [48; 10; 65; 48; 0] 3 4 record_pixel tt tt [] = Some (calls, drawn_width) ∧
    ascii_text_width [48; 10; 65; 48; 0] = Some width ∧
    ascii_text_height [48; 10; 65; 48; 0] = Some height ∧
    Forall (λ k : pixel_call unit unit,
              3 ≤ k.1.1.1 < 3 + width ∧ 4 ≤ k.1.1.2 < 4 + height) calls.
Proof.
  apply (ascii_draw_text_within_metrics [48; 10; 65; 48; 0] [48; 10; 65; 48] 3 4 tt tt).
  - split.
    + repeat constructor; lia.
    + exists []. reflexivity.
  - repeat split.
    1-4: unfold INT_MIN, INT_MAX; lia.
    + repeat constructor; vm_compute; discriminate.
    + vm_compute. discriminate.
    + vm_compute. discriminate.
    + vm_compute. discriminate.
Defined.

Lemma place_lines_app (x y : Z) (lines1 lines2 : list (list Z)) :
  place_lines x y (lines1 ++ lines2)
  = place_lines x y lines1
    ++ place_lines x (y + ASCII_FONT_HEIGHT * Z.of_nat (length lines1)) lines2.
Proof.
  revert y. induction lines1 as [|l lines1 IH]; intros y.
  - cbn [app length].
    replace (y + ASCII_FONT_HEIGHT * Z.of_nat 0) with y by lia. reflexivity.
  - cbn [app]. rewrite !place_lines_cons, IH, <- app_assoc.
    replace (y + ASCII_FONT_HEIGHT + ASCII_FONT_HEIGHT * Z.of_nat (length lines1))
      with (y + ASCII_FONT_HEIGHT * Z.of_nat (length (l :: lines1)))
      by (cbn [length]; unfold ASCII_FONT_HEIGHT; lia).
    reflexivity.
Qed.

Lemma last_line_join_newline (s1 s2 : list Z) :
  last_line (s1 ++ 10 :: s2) = last_line s2.
Proof.
  unfold last_line. rewrite text_lines_join_newline.
  destruct (text_lines_nonempty s2) as (l & ls & ->).
  rewrite last_cons_default. generalize (text_lines s1) as lines.
  induction lines as [|l' lines IH]; [apply last_cons_default|].
  destruct lines; exact IH.
Qed.

(** X5. Drawing two strings joined by a newline is drawing the first at
    [(x, y)] and then the second at [(x, y + h)], where [h] is the height
    [ascii_text_height] gives for the first; the value returned is that of
    drawing the second. *)
Theorem ascii_draw_text_join_newline {World Color UserData : Type}
    (pixel_fn : ascii_pixel_fn World Color UserData) (s1 s2 : list Z) (x y : Z)
    (color : Color) (user_data : UserData) (w : World) :
  Forall (λ ch, ch ≠ 0) s1 → Forall (λ ch, ch ≠ 0) s2 →
  ∃ w1 r1 h1,
    ascii_draw_text (s1 ++ [0]) x y pixel_fn color user_data w = Some (w1, r1) ∧
    ascii_text_height (s1 ++ [0]) = Some h1 ∧
    ascii_draw_text ((s1 ++ 10 :: s2) ++ [0]) x y pixel_fn color user_data w
    = ascii_draw_text (s2 ++ [0]) x (y + h1) pixel_fn color user_data w1.
Proof.
  intros Hs1 Hs2.
  assert (Forall (λ ch, ch ≠ 0) (s1 ++ 10 :: s2)) as Hs12.
  { apply Forall_app. split; [exact Hs1|]. constructor; [lia|exact Hs2]. }
  exists (draw_placed pixel_fn color user_data (text_layout s1 x y) w),
         (int_wrap (line_width (last_line s1))),
         (int_wrap (ASCII_FONT_HEIGHT + ASCII_FONT_HEIGHT * newline_count s1)).
  rewrite !(ascii_draw_text_layout _ _ _ _ _ _ _ _ (holds_string_terminated _ Hs1)).
  rewrite !(ascii_draw_text_layout _ _ _ _ _ _ _ _ (holds_string_terminated _ Hs2)).
  rewrite !(ascii_draw_text_layout _ _ _ _ _ _ _ _ (holds_string_terminated _ Hs12)).
  rewrite (ascii_text_height_int _ _ (holds_string_terminated _ Hs1)).
  split; [reflexivity|]. split; [reflexivity|].
  rewrite last_line_join_newline. f_equal. f_equal.
  unfold text_layout. rewrite text_lines_join_newline, place_lines_app, draw_placed_app.
  rewrite (place_lines_congr x x
             (y + ASCII_FONT_HEIGHT * Z.of_nat (length (text_lines s1)))
             (y + int_wrap (ASCII_FONT_HEIGHT + ASCII_FONT_HEIGHT * newline_count s1)));
    [reflexivity|reflexivity|].
  rewrite int_wrap_add_r. f_equal.
  pose proof (text_lines_length s1). unfold ASCII_FONT_HEIGHT. lia.
Qed.

Lemma ascii_draw_text_join_newline_witness :
  ∃ calls1 r1 h1,
    ascii_draw_text ([48; 65] ++ [0]) 3 4 record_pixel tt tt [] = Some (calls1, r1) ∧
    ascii_text_height ([48; 65] ++ [0]) = Some h1 ∧
    ascii_draw_text (([48; 65] ++ 10 :: [48]) ++ [0]) 3 4 record_pixel tt tt []
    = ascii_draw_text ([48] ++ [0]) 3 (4 + h1) record_pixel tt tt calls1.
Proof.
  apply (ascii_draw_text_join_newline record_pixel [48; 65] [48] 3 4 tt tt []);
    repeat constructor; lia.
Defined.

(** ** What a buffer draw leaves in the buffer *)

(** X6. After a buffer draw whose origin passes the bounds check, into a
    buffer that fits in [int] ([buf_width] and [buf_height] values of
    [int], [buf_width * buf_height] at most [INT_MAX + 1]), every cell of
    the array that lies under a set bit of the glyph, left of [buf_width]
    and above [buf_height], holds the color of the call: the mono and the
    RGB565 draw alike. *)
Theorem buffer_draw_paints_set_bits (c : Z) (buffer : list Z)
    (buf_width buf_height x y color row col : Z) :
  buffer_fits_int buf_width buf_height →
  ¬ origin_rejected buf_width buf_height x y →
  0 ≤ row < ASCII_FONT_HEIGHT → 0 ≤ col < ASCII_FONT_WIDTH →
  Z.testbit (bitmap_row (ascii_get_char_bitmap c) row) (7 - col) = true →
  x + col < buf_width → y + row < buf_height →
  (y + row) * buf_width + (x + col) < Z.of_nat (length buffer) →
  ascii_draw_char_to_mono_buffer c buffer buf_width buf_height x y color
    !! Z.to_nat ((y + row) * buf_width + (x + col)) = Some color ∧
  ascii_draw_char_to_rgb565_buffer c buffer buf_width buf_height x y color
    !! Z.to_nat ((y + row) * buf_width + (x + col)) = Some color.
Proof.
  intros Hfits Horigin Hrow Hcol Hbit Hx Hy Hlen. rgb565_as_mono.
  assert (drawn (ascii_get_char_bitmap c) buf_width buf_height x y
            ((y + row) * buf_width + (x + col))) as Hdrawn.
  { exists row, col. unfold cell_index, glyph_bit. tauto. }
  destruct (drawn_in_buffer _ _ _ _ _ _ Horigin Hdrawn) as (px & py & _ & _ & _ & Hidx).
  destruct (lookup_lt_is_Some_2 buffer
              (Z.to_nat ((y + row) * buf_width + (x + col)))) as [old Hold]; [lia|].
  assert (ascii_draw_char_to_mono_buffer c buffer buf_width buf_height x y color
            !! Z.to_nat ((y + row) * buf_width + (x + col)) = Some color) as Hcell.
  { apply (mono_buffer_draw_stored _ _ _ _ _ _ _ _ old); [lia|exact Hold|].
    apply elem_of_mono_store_indices; [exact Hfits|]. tauto. }
  split; exact Hcell.
Qed.

Lemma buffer_draw_paints_set_bits_witness :
  ascii_draw_char_to_mono_buffer 48 (replicate 64 0) 8 8 0 0 9
    !! Z.to_nat ((0 + 1) * 8 + (0 + 2)) = Some 9 ∧
  ascii_draw_char_to_rgb565_buffer 48 (replicate 64 0) 8 8 0 0 9
    !! Z.to_nat ((0 + 1) * 8 + (0 + 2)) = Some 9.
Proof.
  apply (buffer_draw_paints_set_bits 48 (replicate 64 0) 8 8 0 0 9 1 2).
  - unfold buffer_fits_int, INT_MAX. lia.
  - unfold origin_rejected. lia.
  - unfold ASCII_FONT_HEIGHT. lia.
  - unfold ASCII_FONT_WIDTH. lia.
  - reflexivity.
  - lia.
  - lia.
  - vm_compute. reflexivity.
Defined.

(** X7. A buffer draw whose origin passes the bounds check, with
    [buf_width] and [buf_height] values of [int] and the 8 by 8 cell at
    the origin within [int] ([x + 7] and [y + 7] at most [INT_MAX]), is
    [ascii_draw_char] with a callback that stores the pixels left of
    [buf_width] and above [buf_height] and drops the others: the row and
    column exits of the buffer draws skip the same pixels. *)
Theorem buffer_draw_is_clipped_callback_draw (c : Z) (buffer : list Z)
    (buf_width buf_height x y color : Z) :
  ¬ origin_rejected buf_width buf_height x y →
  buf_width ≤ INT_MAX → buf_height ≤ INT_MAX →
  x + ASCII_FONT_WIDTH - 1 ≤ INT_MAX → y + ASCII_FONT_HEIGHT - 1 ≤ INT_MAX →
  ascii_draw_char_to_mono_buffer c buffer buf_width buf_height x y color
  = ascii_draw_char c x y (clip_store buf_width buf_height) color tt buffer ∧
  ascii_draw_char_to_rgb565_buffer c buffer buf_width buf_height x y color
  = ascii_draw_char c x y (clip_store buf_width buf_height) color tt buffer.
Proof.
  intros Horigin Hw Hh Hxw Hyh. rgb565_as_mono.
  assert (cell_fits_int x y) as Hcell.
  { unfold origin_rejected in Horigin.
    unfold cell_fits_int, fits_int, INT_MIN, INT_MAX in *. lia. }
  assert (ascii_draw_char_to_mono_buffer c buffer buf_width buf_height x y color
          = ascii_draw_char c x y (clip_store buf_width buf_height) color tt buffer) as Heq.
  { unfold ascii_draw_char_to_mono_buffer.
    rewrite draw_char_to_mono_buffer_with_drawn, ascii_draw_char_set_pixels.
    destruct (decide (origin_rejected buf_width buf_height x y)); [contradiction|].
    rewrite drawn_pixels_exact by assumption.
    rewrite (fold_left_ext_in
               (λ w rc, clip_store buf_width buf_height (int_add x rc.2) (int_add y rc.1)
                          color tt w)
               (λ s rc, if (x + rc.2 <? buf_width) && (y + rc.1 <? buf_height)
                        then buffer_store (store_index buf_width x y rc) color s else s)).
    - rewrite (fold_left_guarded
                 (λ rc, (x + rc.2 <? buf_width) && (y + rc.1 <? buf_height))
                 (λ rc s, buffer_store (store_index buf_width x y rc) color s)).
      f_equal. apply list_filter_iff. intros [row col]. cbn.
      rewrite andb_True, !Is_true_true, !Z.ltb_lt. tauto.
    - intros [row col] s Hin. apply elem_of_set_pixels in Hin.
      destruct Hin as (Hrow & Hcol & _). unfold clip_store, store_index. cbn [fst snd].
      destruct (cell_fits_int_add x y row col Hcell Hrow Hcol) as [Hx Hy].
      rewrite <- Hx, <- Hy. reflexivity. }
  split; exact Heq.
Qed.

Lemma buffer_draw_is_clipped_callback_draw_witness :
  ascii_draw_char_to_mono_buffer 48 (replicate 64 0) 8 8 5 6 1
  = ascii_draw_char 48 5 6 (clip_store 8 8) 1 tt (replicate 64 0) ∧
  ascii_draw_char_to_rgb565_buffer 48 (replicate 64 0) 8 8 5 6 1
  = ascii_draw_char 48 5 6 (clip_store 8 8) 1 tt (replicate 64 0).
Proof.
  apply (buffer_draw_is_clipped_callback_draw 48 (replicate 64 0) 8 8 5 6 1);
    unfold origin_rejected, INT_MAX, ASCII_FONT_WIDTH, ASCII_FONT_HEIGHT; lia.
Defined.

(** X8. When the whole 8 by 8 cell at [(x, y)] lies inside a buffer that
    fits in [int], nothing is clipped: a buffer draw makes one store per
    set bit of the glyph, in row-major order, to the cell
    [(x + col, y + row)]. *)
Theorem buffer_draw_unclipped (c buf_width buf_height x y color : Z) :
  buffer_fits_int buf_width buf_height →
  0 ≤ x → 0 ≤ y →
  x + ASCII_FONT_WIDTH ≤ buf_width → y + ASCII_FONT_HEIGHT ≤ buf_height →
  let stores :=
    (λ rc, ((y + rc.1) * buf_width + (x + rc.2), color))
      <$> set_pixels (ascii_get_char_bitmap c) in
  mono_buffer_stores c buf_width buf_height x y color = stores ∧
  rgb565_buffer_stores c buf_width buf_height x y color = stores.
Proof.
  intros Hfits Hx Hy Hw Hh. cbv zeta. rgb565_as_mono.
  assert (¬ origin_rejected buf_width buf_height x y) as Horigin.
  { unfold origin_rejected, ASCII_FONT_WIDTH, ASCII_FONT_HEIGHT in *. lia. }
  assert (mono_buffer_stores c buf_width buf_height x y color
          = (λ rc, ((y + rc.1) * buf_width + (x + rc.2), color))
              <$> set_pixels (ascii_get_char_bitmap c)) as Heq.
  { rewrite mono_buffer_stores_drawn.
    destruct (decide (origin_rejected buf_width buf_height x y)); [contradiction|].
    pose proof Hfits as (Hbw & Hbh & _).
    rewrite drawn_pixels_exact by assumption.
    rewrite filter_all.
    - apply list_fmap_ext. intros i [row col] Hin.
      apply list_elem_of_lookup_2, elem_of_set_pixels in Hin.
      rewrite (store_index_exact buf_width buf_height)
        by (trivial; unfold ASCII_FONT_WIDTH, ASCII_FONT_HEIGHT in *; lia).
      reflexivity.
    - apply Forall_forall. intros [row col] Hin. apply elem_of_set_pixels in Hin.
      cbn. unfold ASCII_FONT_WIDTH, ASCII_FONT_HEIGHT in *. lia. }
  split; exact Heq.
Qed.

Lemma buffer_draw_unclipped_witness :
  mono_buffer_stores 48 20 10 12 2 1
  = (λ rc, ((2 + rc.1) * 20 + (12 + rc.2), 1)) <$> set_pixels (ascii_get_char_bitmap 48) ∧
  rgb565_buffer_stores 48 20 10 12 2 1
  = (λ rc, ((2 + rc.1) * 20 + (12 + rc.2), 1)) <$> set_pixels (ascii_get_char_bitmap 48).
Proof.
  apply (buffer_draw_unclipped 48 20 10 12 2 1);
    unfold buffer_fits_int, INT_MAX, ASCII_FONT_WIDTH, ASCII_FONT_HEIGHT; lia.
Defined.

(** In a buffer that fits in [int], draws into cells that do not overlap
    store to different indices. *)
Lemma cells_apart_store_indices (c1 c2 buf_width buf_height x1 y1 x2 y2 color1 color2 idx : Z) :
  buffer_fits_int buf_width buf_height →
  cells_apart x1 y1 x2 y2 →
  idx ∈ (mono_buffer_stores c1 buf_width buf_height x1 y1 color1).*1 →
  idx ∈ (mono_buffer_stores c2 buf_width buf_height x2 y2 color2).*1 →
  False.
Proof.
  intros Hfits Hapart H1 H2.
  apply (elem_of_mono_store_indices _ _ _ _ _ _ _ Hfits) in H1.
  destruct H1 as (Ho1 & r1 & k1 & Hr1 & Hk1 & _ & Hx1 & _ & ->).
  apply (elem_of_mono_store_indices _ _ _ _ _ _ _ Hfits) in H2.
  destruct H2 as (Ho2 & r2 & k2 & Hr2 & Hk2 & _ & Hx2 & _ & Heq).
  unfold origin_rejected in Ho1, Ho2.
  apply cell_index_inj in Heq; [|lia|lia].
  unfold cells_apart, ASCII_FONT_WIDTH, ASCII_FONT_HEIGHT in *. lia.
Qed.

(** X9. Two buffer draws into the same buffer can be made in either order
    when they use the same color, or when the buffer fits in [int] and
    their 8 by 8 cells do not overlap: the buffer they leave is the
    same. *)
Theorem buffer_draws_commute (c1 c2 : Z) (buffer : list Z)
    (buf_width buf_height x1 y1 x2 y2 color1 color2 : Z) :
  color1 = color2 ∨ (buffer_fits_int buf_width buf_height ∧ cells_apart x1 y1 x2 y2) →
  ascii_draw_char_to_mono_buffer c2
    (ascii_draw_char_to_mono_buffer c1 buffer buf_width buf_height x1 y1 color1)
    buf_width buf_height x2 y2 color2
  = ascii_draw_char_to_mono_buffer c1
      (ascii_draw_char_to_mono_buffer c2 buffer buf_width buf_height x2 y2 color2)
      buf_width buf_height x1 y1 color1 ∧
  ascii_draw_char_to_rgb565_buffer c2
    (ascii_draw_char_to_rgb565_buffer c1 buffer buf_width buf_height x1 y1 color1)
    buf_width buf_height x2 y2 color2
  = ascii_draw_char_to_rgb565_buffer c1
      (ascii_draw_char_to_rgb565_buffer c2 buffer buf_width buf_height x2 y2 color2)
      buf_width buf_height x1 y1 color1.
Proof.
  intros Hcase. rgb565_as_mono.
  assert (ascii_draw_char_to_mono_buffer c2
            (ascii_draw_char_to_mono_buffer c1 buffer buf_width buf_height x1 y1 color1)
            buf_width buf_height x2 y2 color2
          = ascii_draw_char_to_mono_buffer c1
              (ascii_draw_char_to_mono_buffer c2 buffer buf_width buf_height x2 y2 color2)
              buf_width buf_height x1 y1 color1) as Heq.
  { apply list_eq. intros i. rewrite !mono_buffer_draw_lookup.
    destruct (decide (Z.of_nat i ∈ (mono_buffer_stores c1 buf_width buf_height x1 y1 color1).*1))
      as [H1|H1],
      (decide (Z.of_nat i ∈ (mono_buffer_stores c2 buf_width buf_height x2 y2 color2).*1))
      as [H2|H2]; try reflexivity.
    destruct Hcase as [->|[Hfits Hapart]].
    - reflexivity.
    - exfalso.
      exact (cells_apart_store_indices _ _ _ _ _ _ _ _ _ _ _ Hfits Hapart H1 H2). }
  split; exact Heq.
Qed.

Lemma buffer_draws_commute_witness :
  ascii_draw_char_to_mono_buffer 48
    (ascii_draw_char_to_mono_buffer 48 (replicate 128 0) 16 8 0 0 1) 16 8 8 0 2
  = ascii_draw_char_to_mono_buffer 48
      (ascii_draw_char_to_mono_buffer 48 (replicate 128 0) 16 8 8 0 2) 16 8 0 0 1 ∧
  ascii_draw_char_to_rgb565_buffer 48
    (ascii_draw_char_to_rgb565_buffer 48 (replicate 128 0) 16 8 0 0 1) 16 8 8 0 2
  = ascii_draw_char_to_rgb565_buffer 48
      (ascii_draw_char_to_rgb565_buffer 48 (replicate 128 0) 16 8 8 0 2) 16 8 0 0 1.
Proof.
  apply (buffer_draws_commute 48 48 (replicate 128 0) 16 8 0 0 8 0 1 2).
  right. unfold buffer_fits_int, cells_apart, INT_MAX, ASCII_FONT_WIDTH. lia.
Defined.

(** ** The cell of a character *)

(** X10. When the 8 by 8 cell at [(x, y)] has [int] coordinates
    throughout, [ascii_draw_char] at [(x, y)] invokes the callback only
    inside that cell, with the color and user data it was given, at most
    64 times, and never twice at the same coordinates. *)
Theorem ascii_draw_char_within_cell {Color UserData : Type} (c x y : Z)
    (color : Color) (user_data : UserData) :
  cell_fits_int x y →
  let calls := ascii_draw_char c x y record_pixel color user_data [] in
  Forall (λ k : pixel_call Color UserData,
            x ≤ k.1.1.1 < x + ASCII_FONT_WIDTH ∧ y ≤ k.1.1.2 < y + ASCII_FONT_HEIGHT ∧
            k.1.2 = color ∧ k.2 = user_data) calls ∧
  (length calls ≤ 64)%nat ∧
  NoDup ((λ k : pixel_call Color UserData, (k.1.1.1, k.1.1.2)) <$> calls).
Proof.
  intros Hcell. cbv zeta. rewrite ascii_draw_char_record_exact by exact Hcell.
  split; [|split].
  - apply Forall_forall. intros k Hk. apply list_elem_of_fmap in Hk.
    destruct Hk as ([row col] & -> & Hrc). apply elem_of_set_pixels in Hrc. cbn.
    split; [lia|]. split; [lia|]. split; reflexivity.
  - rewrite length_fmap. unfold set_pixels.
    etrans; [apply length_filter|]. reflexivity.
  - rewrite <- list_fmap_compose.
    apply NoDup_fmap_2_strong; [|apply NoDup_filter, glyph_cells_NoDup].
    intros [r1 k1] [r2 k2] _ _ Heq. cbn in Heq. injection Heq as Hx Hy.
    f_equal; lia.
Qed.

Lemma ascii_draw_char_within_cell_witness :
  (length (ascii_draw_char 48 (-5) 2147483640 record_pixel tt tt []) ≤ 64)%nat.
Proof.
  apply (ascii_draw_char_within_cell 48 (-5) 2147483640 tt tt).
  unfold cell_fits_int, fits_int, INT_MIN, INT_MAX, ASCII_FONT_WIDTH, ASCII_FONT_HEIGHT. lia.
Defined.

(** X11. Every glyph the lookup returns has a row for each of the 8 row
    indices the draws read, and each row is a byte. *)
Theorem ascii_get_char_bitmap_rows (c row : Z) :
  0 ≤ row < ASCII_FONT_HEIGHT →
  length (ascii_get_char_bitmap c) = 8%nat ∧
  ascii_get_char_bitmap c !! Z.to_nat row
  = Some (bitmap_row (ascii_get_char_bitmap c) row) ∧
  0 ≤ bitmap_row (ascii_get_char_bitmap c) row < 256.
Proof.
  intros Hrow.
  assert (∀ g : glyph,
            g = zero_glyph ∨ g = blank_glyph →
            Forall (λ r, length g = 8%nat ∧ g !! Z.to_nat r = Some (bitmap_row g r) ∧
                         0 ≤ bitmap_row g r < 256) (seqZ 0 ASCII_FONT_HEIGHT)) as Hrows.
  { intros g [->| ->]; refine (bool_decide_unpack _ _); vm_compute; exact I. }
  specialize (Hrows (ascii_get_char_bitmap c)).
  rewrite Forall_forall in Hrows. apply Hrows.
  - rewrite get_char_bitmap_shipped. destruct (c =? 48); tauto.
  - apply elem_of_seqZ. lia.
Qed.

Lemma ascii_get_char_bitmap_rows_witness :
  length (ascii_get_char_bitmap 48) = 8%nat ∧
  ascii_get_char_bitmap 48 !! Z.to_nat 2 = Some (bitmap_row (ascii_get_char_bitmap 48) 2) ∧
  0 ≤ bitmap_row (ascii_get_char_bitmap 48) 2 < 256.
Proof.
  apply (ascii_get_char_bitmap_rows 48 2). unfold ASCII_FONT_HEIGHT. lia.
Defined.

(** ** Bounds of the text width *)

Lemma max_line_width_nil : max_line_width [] = 0.
Proof. reflexivity. Qed.

Lemma max_line_width_newline (s : list Z) : max_line_width (10 :: s) = max_line_width s.
Proof.
  unfold max_line_width. rewrite text_lines_newline, fmap_cons. cbn [foldr].
  replace (line_width []) with 0 by reflexivity.
  pose proof (foldr_max_nonneg (line_width <$> text_lines s)). lia.
Qed.

Lemma max_line_width_char (ch : Z) (s : list Z) :
  ch ≠ 10 →
  ASCII_FONT_WIDTH ≤ max_line_width (ch :: s) ≤ ASCII_FONT_WIDTH + max_line_width s.
Proof.
  intros Hch. unfold max_line_width.
  destruct (text_lines_nonempty s) as (l & ls & Hs).
  rewrite (text_lines_char ch s l ls Hch Hs), Hs, !fmap_cons. cbn [foldr].
  rewrite line_width_cons.
  pose proof (line_width_nonneg l). pose proof (foldr_max_nonneg (line_width <$> ls)).
  unfold ASCII_FONT_WIDTH. lia.
Qed.

Lemma max_line_width_bounds (s : list Z) :
  0 ≤ max_line_width s ≤ ASCII_FONT_WIDTH * (Z.of_nat (length s) - newline_count s).
Proof.
  induction s as [|ch s IH].
  { rewrite max_line_width_nil. change (newline_count []) with 0.
    unfold ASCII_FONT_WIDTH. cbn [length]. lia. }
  rewrite newline_count_cons. cbn [length].
  destruct (Z.eqb_spec ch 10) as [->|Hch].
  - rewrite max_line_width_newline. unfold ASCII_FONT_WIDTH in *. lia.
  - pose proof (max_line_width_char ch s Hch). unfold ASCII_FONT_WIDTH in *. lia.
Qed.

Lemma max_line_width_zero (s : list Z) :
  max_line_width s = 0 ↔ Forall (λ ch, ch = 10) s.
Proof.
  induction s as [|ch s IH]; [split; [constructor|reflexivity]|].
  destruct (Z.eq_dec ch 10) as [->|Hch].
  - rewrite max_line_width_newline, IH. split.
    + intros Hs. constructor; [reflexivity|exact Hs].
    + intros Hs. inversion Hs; assumption.
  - pose proof (max_line_width_char ch s Hch) as Hb. unfold ASCII_FONT_WIDTH in Hb.
    split; [lia|]. intros Hs. inversion Hs; contradiction.
Qed.

(** X12. On a terminated string none of whose lines has [2^28] characters
    or more, [ascii_text_width] returns 8 times the length of some line of
    the string; it is at least 0 and at most 8 times the number of
    characters other than newlines, and it is 0 exactly when the string
    has no character other than newlines. *)
Theorem ascii_text_width_bounds (text s : list Z) :
  holds_string text s → lines_fit_int s →
  ∃ width,
    ascii_text_width text = Some width ∧
    (∃ l, l ∈ text_lines s ∧ width = ASCII_FONT_WIDTH * Z.of_nat (length l)) ∧
    0 ≤ width ≤ ASCII_FONT_WIDTH * (Z.of_nat (length s) - newline_count s) ∧
    (width = 0 ↔ Forall (λ ch, ch = 10) s).
Proof.
  intros Htext Hfit. exists (max_line_width s).
  split; [apply ascii_text_width_holds; assumption|].
  split.
  { destruct (max_line_width_reached s) as (l & Hl & Heq). exists l.
    split; [exact Hl|]. symmetry. exact Heq. }
  split; [apply max_line_width_bounds|apply max_line_width_zero].
Qed.

Lemma ascii_text_width_bounds_witness :
  ∃ width,
    ascii_text_width [10; 65; 66; 10; 0] = Some width ∧
    (∃ l, l ∈ text_lines [10; 65; 66; 10] ∧ width = ASCII_FONT_WIDTH * Z.of_nat (length l)) ∧
    0 ≤ width ≤ ASCII_FONT_WIDTH * (Z.of_nat (length [10; 65; 66; 10]) - newline_count [10; 65; 66; 10]) ∧
    (width = 0 ↔ Forall (λ ch, ch = 10) [10; 65; 66; 10]).
Proof.
  apply (ascii_text_width_bounds [10; 65; 66; 10; 0] [10; 65; 66; 10]).
  - split.
    + repeat constructor; lia.
    + exists []. reflexivity.
  - repeat constructor; vm_compute; discriminate.
Defined.

(** ** Text in the shipped font *)

Lemma elem_of_join_lines (lines : list (list Z)) (l : list Z) (ch : Z) :
  l ∈ lines → ch ∈ l → ch ∈ join_lines lines.
Proof.
  induction lines as [|l0 lines IH]; intros Hl Hch.
  - apply elem_of_nil in Hl. contradiction.
  - apply elem_of_cons in Hl.
    destruct lines as [|l1 lines].
    + destruct Hl as [->|Hl]; [exact Hch|]. apply elem_of_nil in Hl. contradiction.
    + change (join_lines (l0 :: l1 :: lines)) with (l0 ++ 10 :: join_lines (l1 :: lines)).
      apply elem_of_app. destruct Hl as [->|Hl]; [left; exact Hch|].
      right. right. apply IH; assumption.
Qed.

Lemma text_layout_chars (s : list Z) (x y : Z) (p : Z * Z * Z) :
  p ∈ text_layout s x y → p.1.1 ∈ s ∧ p.1.1 ≠ 10.
Proof.
  unfold text_layout. intros Hp. apply elem_of_place_lines in Hp.
  destruct Hp as (i & j & l & ch & Hl & Hch & ->). cbn.
  assert (l ∈ text_lines s) as Hin by (apply list_elem_of_lookup; eauto).
  assert (ch ∈ l) as Hchl by (apply list_elem_of_lookup; eauto).
  split.
  - pose proof (elem_of_join_lines _ _ _ Hin Hchl) as Hjoin.
    rewrite join_text_lines in Hjoin. exact Hjoin.
  - pose proof (text_lines_no_newline s) as Hno. rewrite Forall_forall in Hno.
    intros ->. exact (Hno l Hin Hchl).
Qed.

Lemma draw_placed_blank {World Color UserData : Type}
    (pixel_fn : ascii_pixel_fn World Color UserData) (color : Color)
    (user_data : UserData) (places : list (Z * Z * Z)) (w : World) :
  Forall (λ p, ascii_get_char_bitmap p.1.1 = blank_glyph) places →
  draw_placed pixel_fn color user_data places w = w.
Proof.
  intros Hblank. revert w. induction Hblank as [|p places Hp _ IH]; intros w; [reflexivity|].
  unfold draw_placed in IH |- *. cbn [fold_left].
  rewrite (ascii_draw_char_blank pixel_fn _ _ _ _ _ _ Hp). apply IH.
Qed.

(** X13. With the shipped glyph table, drawing a terminated string that
    has no digit 0 (ASCII 48) in it invokes the callback not once: the
    state of the callback is returned as it was, with the width of the
    last line as a value of [int]. *)
Theorem ascii_draw_text_without_zero_digit {World Color UserData : Type}
    (pixel_fn : ascii_pixel_fn World Color UserData) (text s : list Z) (x y : Z)
    (color : Color) (user_data : UserData) (w : World) :
  holds_string text s → 48 ∉ s →
  ascii_draw_text text x y pixel_fn color user_data w
  = Some (w, int_wrap (ASCII_FONT_WIDTH * Z.of_nat (length (last_line s)))).
Proof.
  intros Htext Hzero. rewrite (ascii_draw_text_layout _ _ _ _ s) by exact Htext.
  rewrite draw_placed_blank; [reflexivity|].
  apply Forall_forall. intros p Hp. apply text_layout_chars in Hp.
  rewrite get_char_bitmap_shipped.
  destruct (Z.eqb_spec p.1.1 48) as [Heq|_]; [|reflexivity].
  exfalso. apply Hzero. rewrite <- Heq. tauto.
Qed.

Lemma ascii_draw_text_without_zero_digit_witness :
  ascii_draw_text [72; 105; 10; 33; 0] 3 4 record_pixel tt tt []
  = Some ([], int_wrap (ASCII_FONT_WIDTH * Z.of_nat (length (last_line [72; 105; 10; 33])))).
Proof.
  apply (ascii_draw_text_without_zero_digit record_pixel
           [72; 105; 10; 33; 0] [72; 105; 10; 33] 3 4 tt tt []).
  - split.
    + repeat constructor; lia.
    + exists []. reflexivity.
  - intros Hin. repeat (apply elem_of_cons in Hin; destruct Hin as [Hin|Hin]; [lia|]).
    apply elem_of_nil in Hin. exact Hin.
Defined.
